(** * cmsplugin_zinnia.cms_plugins: the render operations of the plugins

    A shallow embedding of [cmsplugin_zinnia/cms_plugins.py].  The module
    is glue between django-cms and Zinnia: each plugin class has a
    [render(self, context, instance, placeholder)] method which builds a
    queryset of entries (or nothing at all), stores it in the template
    context with [context.update({...})] and returns the context.

    The query layer (Django querysets, django-tagging, the category
    tree) is not part of the module; it is modelled here by its result
    rows, with the row multiplicities an SQL join produces, so that the
    place of [distinct()] and of the slice in the pipeline matters. *)

From stdpp Require Import gmap strings list.

(** ** Primary keys

    Rows are identified by their primary key. *)

Abbreviation Entry := nat (only parsing).
Abbreviation Category := nat (only parsing).
Abbreviation Author := nat (only parsing).
Abbreviation Tag := nat (only parsing).

(** ** The blog database, as the plugins read it *)

Record Database := {
  (** [Entry.published.all()], in the default ordering of the model *)
  published : list Entry;
  (** the entry table, published entries and others, in the default
      ordering of the model *)
  all_entries : list Entry;
  (** rows (entry, category) of the entry/category relation *)
  entry_categories : list (Entry * Category);
  (** rows (entry, author) of the entry/author relation *)
  entry_authors : list (Entry * Author);
  (** rows (object_id, tag) of [TaggedItem] for the entry content type *)
  tagged_items : list (Entry * Tag);
  (** [c.get_descendants()] of the category tree, without [c] itself *)
  get_descendants : Category → list Category;
  (** [Entry.published.search(query)] *)
  search : string → list Entry;
}.

(** ** Python truth values *)

(** [if n:] for an integer. *)
Definition truth (n : nat) : bool := negb (n =? 0).

(** [if number_of_entries: entries = entries[:number_of_entries]], the
    statement the latest-entries and the query-entries [render] share;
    the condition is false for an unset field and for 0. *)
Definition slice_to (number_of_entries : option nat) (entries : list Entry)
    : list Entry :=
  match number_of_entries with
  | Some n => if truth n then take n entries else entries
  | None => entries
  end.

(** [str(s) or default] for a string [s]. *)
Definition str_or (s default : string) : string :=
  if decide (s = "") then default else s.

(** ** Querysets, by their rows *)

(** A row [r] of a many-to-many relation links [e] to one of [vals]. *)
Definition links (vals : list nat) (e : Entry) (r : Entry * nat) : Prop :=
  r.1 = e ∧ r.2 ∈ vals.

Global Instance links_dec vals e r : Decision (links vals e r).
Proof. unfold links. apply _. Defined.

(** [queryset.filter(rel__in=vals)] on a many-to-many relation: the
    inner join with the relation table, one result row for every
    relation row that links the entry to a member of [vals]. *)
Definition filter_in (rel : list (Entry * nat)) (vals : list nat)
    (queryset : list Entry) : list Entry :=
  flat_map (λ e, (λ _, e) <$> filter (links vals e) rel) queryset.

(** [queryset.distinct()]: equal rows are kept once, at their first
    position in the ordering. *)
Fixpoint distinct (queryset : list Entry) : list Entry :=
  match queryset with
  | [] => []
  | e :: rest => e :: filter (λ x, x ≠ e) (distinct rest)
  end.

(** [TaggedItem.objects.get_union_by_model(queryset, tags)] of
    django-tagging: no tag gives the empty queryset; otherwise the ids
    of the objects carrying any of the tags are selected ([GROUP BY] the
    object id) and the queryset is restricted to them
    ([queryset.filter(pk__in=object_ids)]), or emptied when there is no
    such id. *)
Definition get_union_by_model (db : Database) (queryset : list Entry)
    (tags : list Tag) : list Entry :=
  if truth (length tags) then
    let object_ids :=
      remove_dups ((filter (λ r : Entry * Tag, r.2 ∈ tags) (tagged_items db)).*1) in
    if decide (0 < length object_ids)
    then filter (λ e, e ∈ object_ids) queryset
    else []
  else [].

(** [instance.entries.all()] on a many-to-many relation to the entries:
    the join of the entry table with the rows of the relation.  The
    result follows the ordering of the entry table, not the order in
    which the rows were stored, and has one row for every row of the
    relation that names the entry. *)
Definition related_all (table : list Entry) (rows : list Entry) : list Entry :=
  flat_map (λ e, filter (λ r, r = e) rows) table.

(** ** Plugin models ([cmsplugin_zinnia.models])

    The models are declared outside this module; each record lists the
    fields the [render] methods read.  The categories, authors and tags
    of the latest entries stand for the rows their [all()] returns (so
    [count()] is their number); the entries of a selection are the rows
    of the relation as they were stored, which [render] reads through
    [all()].  The number of entries is a count that may be unset, and
    the template is a string, empty when none is chosen. *)

Module LatestEntriesPlugin.
Record t := {
  categories : list Category;      (* [instance.categories.all()] *)
  subcategories : bool;
  authors : list Author;           (* [instance.authors.all()] *)
  tags : list Tag;                 (* [instance.tags.all()] *)
  number_of_entries : option nat;  (* 0 means all the entries *)
  template_to_render : string;
}.
End LatestEntriesPlugin.

Module SelectedEntriesPlugin.
Record t := {
  entries : list Entry;            (* rows of the relation, as stored *)
  template_to_render : string;
}.
End SelectedEntriesPlugin.

Module RandomEntriesPlugin.
Record t := {
  number_of_entries : option nat;
  template_to_render : string;
}.
End RandomEntriesPlugin.

Module QueryEntriesPlugin.
Record t := {
  query : string;
  number_of_entries : option nat;
  template_to_render : string;
}.
End QueryEntriesPlugin.

Module CalendarEntriesPlugin.
Record t := {
  year : option nat;
  month : option nat;
}.
End CalendarEntriesPlugin.

(** The base model of django-cms, used by the search form and the
    tools plugins. *)
Module CMSPlugin.
Record t := { pk : nat }.
End CMSPlugin.

(** ** Template contexts *)

(** What a context variable may hold. *)
Inductive Value :=
| VStr (s : string)
| VEntries (queryset : list Entry)
| VLatest (instance : LatestEntriesPlugin.t)
| VSelected (instance : SelectedEntriesPlugin.t)
| VRandom (instance : RandomEntriesPlugin.t)
| VQuery (instance : QueryEntriesPlugin.t)
| VCalendar (instance : CalendarEntriesPlugin.t)
| VPlugin (instance : CMSPlugin.t).

(** A context maps variable names to values; contexts are objects,
    reached by reference and updated in place. *)
Abbreviation Context := (gmap string Value) (only parsing).
Abbreviation ref := positive (only parsing).
Abbreviation Heap := (gmap positive (gmap string Value)) (only parsing).

(** [d.update({k1: v1, ...})] on the mapping itself: the pairs are
    stored one after the other. *)
Definition dict_update (d : list (string * Value)) (ctx : Context) : Context :=
  foldl (λ m kv, <[kv.1 := kv.2]> m) ctx d.

(** [context.update({...})]: the object behind the reference is updated
    in place.  A reference to no object cannot arise in Python; the
    model answers [None] there. *)
Definition context_update (context : ref) (d : list (string * Value))
    (h : Heap) : option Heap :=
  ctx ← h !! context;
  Some (<[context := dict_update d ctx]> h).

(** ** The admin form of the latest-entries plugin *)

(** A model field of the form, by its name ([db_field.name]). *)
Module DBField.
Record t := { name : string }.
End DBField.

(** A keyword argument handed on to the form field: a queryset of
    choices, by its rows, or anything else. *)
Inductive Arg :=
| AQuerySet (rows : list nat)
| AOther (v : string).

(** The querysets the form restricts its choices to:
    [Author.published.all()] and [tags_published()]. *)
Record Choices := {
  authors_published : list Author;
  tags_published : list Tag;
}.

(** ** The plugins

    One module for each plugin class, with its [render] method.  A
    [render] takes the heap of context objects and answers the reference
    it returns together with the heap it leaves. *)

(** [CMSLatestEntriesPlugin] (lines 39-91).  The three guarded blocks of
    [render] and its slice are named, so that each can be spoken of on
    its own; [render] runs them in the order of the source. *)
Module CMSLatestEntriesPlugin.
Import LatestEntriesPlugin.

(** The categories the entries are looked up in: the configured ones,
    followed by the descendants of each when [subcategories] is set
    ([itertools.chain(cats, *[c.get_descendants() for c in cats])]). *)
Definition effective_categories (db : Database) (instance : t) : list Category :=
  let cats := categories instance in
  if subcategories instance
  then cats ++ mjoin (get_descendants db <$> cats)
  else cats.

(** [if instance.categories.count(): ...] (lines 71-78) *)
Definition restrict_categories (db : Database) (instance : t)
    (entries : list Entry) : list Entry :=
  if truth (length (categories instance))
  then filter_in (entry_categories db) (effective_categories db instance) entries
  else entries.

(** [if instance.authors.count(): ...] (lines 79-80) *)
Definition restrict_authors (db : Database) (instance : t)
    (entries : list Entry) : list Entry :=
  if truth (length (authors instance))
  then filter_in (entry_authors db) (authors instance) entries
  else entries.

(** [if instance.tags.count(): ...] (lines 81-83) *)
Definition restrict_tags (db : Database) (instance : t)
    (entries : list Entry) : list Entry :=
  if truth (length (tags instance))
  then get_union_by_model db entries (tags instance)
  else entries.

(** [if instance.number_of_entries: ...] (lines 86-87) *)
Definition limited (instance : t) (entries : list Entry) : list Entry :=
  slice_to (number_of_entries instance) entries.

Definition render (db : Database) (context : ref) (instance : t)
    (placeholder : Value) (h : Heap) : option (ref * Heap) :=
  let entries := published db in
  let entries := restrict_categories db instance entries in
  let entries := restrict_authors db instance entries in
  let entries := restrict_tags db instance entries in
  let entries := distinct entries in
  let entries := limited instance entries in
  h ← context_update context
        [("entries", VEntries entries);
         ("object", VLatest instance);
         ("placeholder", placeholder)] h;
  Some (context, h).

(** The queryset [render] has built when it reaches the slice: the
    three restrictions in the order of the source, then [distinct()]. *)
Definition selection (db : Database) (instance : t) : list Entry :=
  distinct
    (restrict_tags db instance
       (restrict_authors db instance
          (restrict_categories db instance (published db)))).

(** [formfield_for_manytomany(self, db_field, request, **kwargs)]
    (lines 54-63); [super] is the method of the base class the call is
    handed on to. *)
Definition formfield_for_manytomany {Request FormField : Type}
    (super : DBField.t → Request → gmap string Arg → FormField)
    (choices : Choices) (db_field : DBField.t) (request : Request)
    (kwargs : gmap string Arg) : FormField :=
  let kwargs :=
    if decide (DBField.name db_field = "authors")
    then <["queryset" := AQuerySet (authors_published choices)]> kwargs
    else kwargs in
  let kwargs :=
    if decide (DBField.name db_field = "tags")
    then <["queryset" := AQuerySet (tags_published choices)]> kwargs
    else kwargs in
  super db_field request kwargs.
End CMSLatestEntriesPlugin.

(** [CMSSelectedEntriesPlugin] (lines 94-111) *)
Module CMSSelectedEntriesPlugin.
Import SelectedEntriesPlugin.

Definition render (db : Database) (context : ref) (instance : t)
    (placeholder : Value) (h : Heap) : option (ref * Heap) :=
  h ← context_update context
        [("entries", VEntries (related_all (all_entries db) (entries instance)));
         ("object", VSelected instance);
         ("placeholder", placeholder)] h;
  Some (context, h).
End CMSSelectedEntriesPlugin.

(** [CMSRandomEntriesPlugin] (lines 114-132) *)
Module CMSRandomEntriesPlugin.
Import RandomEntriesPlugin.

Definition render (context : ref) (instance : t) (placeholder : Value)
    (h : Heap) : option (ref * Heap) :=
  h ← context_update context
        [("object", VRandom instance);
         ("placeholder", placeholder);
         ("template_to_render",
          VStr (str_or (template_to_render instance)
                       "zinnia/tags/random_entries.html"))] h;
  Some (context, h).
End CMSRandomEntriesPlugin.

(** [CMSQueryEntriesPlugin] (lines 135-155) *)
Module CMSQueryEntriesPlugin.
Import QueryEntriesPlugin.

Definition render (db : Database) (context : ref) (instance : t)
    (placeholder : Value) (h : Heap) : option (ref * Heap) :=
  let entries := search db (query instance) in
  let entries := slice_to (number_of_entries instance) entries in
  h ← context_update context
        [("entries", VEntries entries);
         ("object", VQuery instance);
         ("placeholder", placeholder)] h;
  Some (context, h).
End CMSQueryEntriesPlugin.

(** [CMSCalendarEntriesPlugin] (lines 158-177) *)
Module CMSCalendarEntriesPlugin.
Import CalendarEntriesPlugin.

Definition render (context : ref) (instance : t) (placeholder : Value)
    (h : Heap) : option (ref * Heap) :=
  h ← context_update context
        [("object", VCalendar instance);
         ("placeholder", placeholder)] h;
  Some (context, h).
End CMSCalendarEntriesPlugin.

(** [CMSSearchPlugin] (lines 180-200) *)
Module CMSSearchPlugin.
Definition render (context : ref) (instance : CMSPlugin.t)
    (placeholder : Value) (h : Heap) : option (ref * Heap) :=
  h ← context_update context
        [("object", VPlugin instance);
         ("placeholder", placeholder)] h;
  Some (context, h).
End CMSSearchPlugin.

(** [CMSToolsPlugin] (lines 203-223) *)
Module CMSToolsPlugin.
Definition render (context : ref) (instance : CMSPlugin.t)
    (placeholder : Value) (h : Heap) : option (ref * Heap) :=
  h ← context_update context
        [("object", VPlugin instance);
         ("placeholder", placeholder)] h;
  Some (context, h).
End CMSToolsPlugin.

(** ** What the rendering layer sees *)

(** The context a render call returns, read through the returned
    reference. *)
Definition returned_context (r : option (ref * Heap)) : option Context :=
  '(context, h) ← r; h !! context.

(** The value of a variable of the returned context. *)
Definition returned (key : string) (r : option (ref * Heap)) : option Value :=
  ctx ← returned_context r; ctx !! key.

(** The entries handed to the template. *)
Definition returned_entries (r : option (ref * Heap)) : option (list Entry) :=
  match returned "entries" r with
  | Some (VEntries queryset) => Some queryset
  | _ => None
  end.

(** ** The registered plugins

    The seven classes handed to [plugin_pool.register_plugin], each with
    the instance of its model; the host calls
    [plugin.render(context, instance, placeholder)]. *)

Inductive Plugin :=
| Latest (instance : LatestEntriesPlugin.t)
| Selected (instance : SelectedEntriesPlugin.t)
| Random (instance : RandomEntriesPlugin.t)
| Query (instance : QueryEntriesPlugin.t)
| Calendar (instance : CalendarEntriesPlugin.t)
| SearchForm (instance : CMSPlugin.t)
| Tools (instance : CMSPlugin.t).

Definition plugin_render (db : Database) (p : Plugin) (context : ref)
    (placeholder : Value) (h : Heap) : option (ref * Heap) :=
  match p with
  | Latest i => CMSLatestEntriesPlugin.render db context i placeholder h
  | Selected i => CMSSelectedEntriesPlugin.render db context i placeholder h
  | Random i => CMSRandomEntriesPlugin.render context i placeholder h
  | Query i => CMSQueryEntriesPlugin.render db context i placeholder h
  | Calendar i => CMSCalendarEntriesPlugin.render context i placeholder h
  | SearchForm i => CMSSearchPlugin.render context i placeholder h
  | Tools i => CMSToolsPlugin.render context i placeholder h
  end.

(** The keys of the dictionary each [render] passes to [context.update]. *)
Definition added_keys (p : Plugin) : list string :=
  match p with
  | Latest _ | Selected _ | Query _ => ["entries"; "object"; "placeholder"]
  | Random _ => ["object"; "placeholder"; "template_to_render"]
  | Calendar _ | SearchForm _ | Tools _ => ["object"; "placeholder"]
  end.

(** The instance of a plugin, as a context value. *)
Definition instance_value (p : Plugin) : Value :=
  match p with
  | Latest i => VLatest i
  | Selected i => VSelected i
  | Random i => VRandom i
  | Query i => VQuery i
  | Calendar i => VCalendar i
  | SearchForm i | Tools i => VPlugin i
  end.

(** ** Vocabulary of the properties *)

(** Some row of the relation links [e] to a member of [vals]. *)
Definition related (rel : list (Entry * nat)) (vals : list nat) (e : Entry) : Prop :=
  Exists (links vals e) rel.

Global Instance related_dec rel vals e : Decision (related rel vals e).
Proof. unfold related. apply _. Defined.

(** [e] satisfies every restriction the instance configures: a criterion
    whose set is empty restricts nothing. *)
Definition passes (db : Database) (instance : LatestEntriesPlugin.t)
    (e : Entry) : Prop :=
  (LatestEntriesPlugin.categories instance = [] ∨
   related (entry_categories db)
           (CMSLatestEntriesPlugin.effective_categories db instance) e) ∧
  (LatestEntriesPlugin.authors instance = [] ∨
   related (entry_authors db) (LatestEntriesPlugin.authors instance) e) ∧
  (LatestEntriesPlugin.tags instance = [] ∨
   related (tagged_items db) (LatestEntriesPlugin.tags instance) e).

Global Instance passes_dec db instance e : Decision (passes db instance e).
Proof. unfold passes. apply _. Defined.

(** How many times [e] occurs in a queryset. *)
Definition occurrences (e : Entry) (queryset : list Entry) : nat :=
  length (filter (λ x, x = e) queryset).

(** [out] is [pre] cut by a configured limit: its first [L] entries, in
    the order of [pre], for a limit [L > 0]; all of [pre] for a limit
    that is 0 or unset. *)
Definition truncated (limit : option nat) (pre out : list Entry) : Prop :=
  (∀ L, limit = Some L → 0 < L →
     out `prefix_of` pre ∧ length out = L `min` length pre) ∧
  (limit = Some 0 ∨ limit = None → out = pre).

(** No limit is configured: the field is unset or 0. *)
Definition unlimited (limit : option nat) : Prop :=
  limit = None ∨ limit = Some 0.

(** The instance with the include-subcategories flag set to [b]. *)
Definition with_subcategories (b : bool) (instance : LatestEntriesPlugin.t)
    : LatestEntriesPlugin.t :=
  {| LatestEntriesPlugin.categories := LatestEntriesPlugin.categories instance;
     LatestEntriesPlugin.subcategories := b;
     LatestEntriesPlugin.authors := LatestEntriesPlugin.authors instance;
     LatestEntriesPlugin.tags := LatestEntriesPlugin.tags instance;
     LatestEntriesPlugin.number_of_entries :=
       LatestEntriesPlugin.number_of_entries instance;
     LatestEntriesPlugin.template_to_render :=
       LatestEntriesPlugin.template_to_render instance |}.

(** Two configured sets with the same members, whatever their order
    and however often a member is listed. *)
Definition same_members (s s' : list nat) : Prop := ∀ x, x ∈ s ↔ x ∈ s'.

(** The criterion configured by [s'] asks no more than the one
    configured by [s]: it is not configured at all, or [s] is configured
    and every member of [s] is a member of [s']. *)
Definition weaker (s s' : list nat) : Prop := s' = [] ∨ (s ≠ [] ∧ s ⊆ s').

(** The instance with its number of entries set to [n]. *)
Definition with_number_of_entries (n : option nat)
    (instance : LatestEntriesPlugin.t) : LatestEntriesPlugin.t :=
  {| LatestEntriesPlugin.categories := LatestEntriesPlugin.categories instance;
     LatestEntriesPlugin.subcategories :=
       LatestEntriesPlugin.subcategories instance;
     LatestEntriesPlugin.authors := LatestEntriesPlugin.authors instance;
     LatestEntriesPlugin.tags := LatestEntriesPlugin.tags instance;
     LatestEntriesPlugin.number_of_entries := n;
     LatestEntriesPlugin.template_to_render :=
       LatestEntriesPlugin.template_to_render instance |}.

(** The query instance with its number of entries set to [n]. *)
Definition query_with_number_of_entries (n : option nat)
    (instance : QueryEntriesPlugin.t) : QueryEntriesPlugin.t :=
  {| QueryEntriesPlugin.query := QueryEntriesPlugin.query instance;
     QueryEntriesPlugin.number_of_entries := n;
     QueryEntriesPlugin.template_to_render :=
       QueryEntriesPlugin.template_to_render instance |}.

(** Plugin [p] is rendered, then plugin [q] with the context [p]
    returned. *)
Definition render_then (db : Database) (p q : Plugin) (context : ref)
    (placeholder placeholder' : Value) (h : Heap) : option (ref * Heap) :=
  '(context', h') ← plugin_render db p context placeholder h;
  plugin_render db q context' placeholder' h'.

(** The year and the month the calendar template reads from the
    returned context ([object.year], [object.month]). *)
Definition calendar_parameters (r : option (ref * Heap))
    : option (option nat * option nat) :=
  match returned "object" r with
  | Some (VCalendar i) =>
      Some (CalendarEntriesPlugin.year i, CalendarEntriesPlugin.month i)
  | _ => None
  end.

(** ** A small blog

    Five published entries 1..5, in the published order, and a draft 6.
    Category 11 is the child of category 10.  Tag 30 is carried by the
    entries 1, 3 and 6, tag 31 by the entries 1, 2 and 4. *)

Definition blog : Database := {|
  published := [1; 2; 3; 4; 5];
  all_entries := [1; 2; 3; 4; 5; 6];
  entry_categories := [(1, 11); (2, 10); (2, 11); (3, 12); (4, 10); (5, 12); (6, 10)];
  entry_authors := [(1, 20); (2, 20); (2, 21); (3, 21); (4, 20); (5, 20); (6, 20)];
  tagged_items := [(1, 30); (3, 30); (6, 30); (1, 31); (2, 31); (4, 31)];
  get_descendants := λ c, if decide (c = 10) then [11] else [];
  search := λ q, if decide (q = "rocq") then [2; 4; 5] else [];
|}.

(** A page with one context object, holding a request variable. *)
Definition page_context : Context := {[ "request" := VStr "GET /blog/" ]}.
Definition page : Heap := {[ 1%positive := page_context ]}.

Definition slot : Value := VStr "content".

Definition latest (cats : list Category) (sub : bool) (auths : list Author)
    (tgs : list Tag) (n : option nat) : LatestEntriesPlugin.t :=
  {| LatestEntriesPlugin.categories := cats;
     LatestEntriesPlugin.subcategories := sub;
     LatestEntriesPlugin.authors := auths;
     LatestEntriesPlugin.tags := tgs;
     LatestEntriesPlugin.number_of_entries := n;
     LatestEntriesPlugin.template_to_render := "" |}.

(** One entry of categories 10 or 12 by author 20 with tag 30 or 31. *)
Definition sidebar : LatestEntriesPlugin.t :=
  latest [10; 12] false [20] [30; 31] (Some 1).

(** Two entries of category 10 and below by author 20 with tag 31. *)
Definition teaser : LatestEntriesPlugin.t :=
  latest [10] true [20] [31] (Some 2).

(** The first entry of category 10. *)
Definition headline : LatestEntriesPlugin.t :=
  latest [10] false [] [] (Some 1).

(** Everything of category 10, tags 30 and 31 and author 20. *)
Definition archive : LatestEntriesPlugin.t :=
  latest [10] false [20] [30; 31] None.

(** A selection made in the order 4, 6, 1; entry 6 is the draft. *)
Definition selected_instance : SelectedEntriesPlugin.t :=
  {| SelectedEntriesPlugin.entries := [4; 6; 1];
     SelectedEntriesPlugin.template_to_render := "" |}.

Definition random_instance (template : string) : RandomEntriesPlugin.t :=
  {| RandomEntriesPlugin.number_of_entries := Some 3;
     RandomEntriesPlugin.template_to_render := template |}.

Definition query_instance (n : option nat) : QueryEntriesPlugin.t :=
  {| QueryEntriesPlugin.query := "rocq";
     QueryEntriesPlugin.number_of_entries := n;
     QueryEntriesPlugin.template_to_render := "" |}.

(** A calendar with neither year nor month set. *)
Definition calendar_instance : CalendarEntriesPlugin.t :=
  {| CalendarEntriesPlugin.year := None;
     CalendarEntriesPlugin.month := None |}.

(** Nothing configured but a limit of two. *)
Definition newest : LatestEntriesPlugin.t := latest [] true [] [] (Some 2).

(** Everything below category 10, listed with a repetition. *)
Definition section_page : LatestEntriesPlugin.t :=
  latest [10; 10] true [] [] None.

(** Entries with a tag no entry carries. *)
Definition orphan_tag : LatestEntriesPlugin.t := latest [] true [] [39] None.

(** The choices of the admin form of the small blog. *)
Definition blog_choices : Choices :=
  {| authors_published := [20; 21]; tags_published := [30; 31] |}.

(** A base class method that answers the queryset it is given. *)
Definition offered (db_field : DBField.t) (request : string)
    (kwargs : gmap string Arg) : option Arg :=
  kwargs !! "queryset".

(** ** The pipeline on the small blog *)

Example latest_all :
  returned_entries
    (CMSLatestEntriesPlugin.render blog 1 (latest [] true [] [] None) slot page)
  = Some [1; 2; 3; 4; 5].
Proof. vm_compute. reflexivity. Qed.

(** Entries carrying tag 30 or tag 31, the first three of them. *)
Example latest_tag_union :
  returned_entries
    (CMSLatestEntriesPlugin.render blog 1 (latest [] true [] [30; 31] (Some 3)) slot page)
  = Some [1; 2; 3].
Proof. vm_compute. reflexivity. Qed.

(** The join gives entry 2 twice, once for each of its categories. *)
Example latest_join_rows :
  CMSLatestEntriesPlugin.restrict_categories blog (latest [10] true [] [] None)
    (published blog)
  = [1; 2; 2; 4].
Proof. vm_compute. reflexivity. Qed.

Example latest_teaser :
  returned_entries (CMSLatestEntriesPlugin.render blog 1 teaser slot page)
  = Some [1; 2].
Proof. vm_compute. reflexivity. Qed.

Example latest_sidebar :
  returned_entries (CMSLatestEntriesPlugin.render blog 1 sidebar slot page)
  = Some [2].
Proof. vm_compute. reflexivity. Qed.

Example query_limited :
  returned_entries (CMSQueryEntriesPlugin.render blog 1 (query_instance (Some 2)) slot page)
  = Some [2; 4].
Proof. vm_compute. reflexivity. Qed.

(** ** Querysets: filters, joins and [distinct] *)

Section queryset_facts.
Context `{EqDecision A} (P Q : A → Prop) `{!∀ x, Decision (P x)} `{!∀ x, Decision (Q x)}.

Lemma filter_swap (l : list A) :
  filter P (filter Q l) = filter Q (filter P l).
Proof.
  rewrite !list_filter_filter. apply list_filter_iff. tauto.
Qed.

Lemma filter_drop_other (x : A) (l : list A) :
  ¬ P x → filter P (filter (λ y, y ≠ x) l) = filter P l.
Proof.
  intros Hx. apply list_filter_filter_l. intros y Hy ->. tauto.
Qed.

End queryset_facts.

Lemma distinct_filter (P : Entry → Prop) `{!∀ x, Decision (P x)} (l : list Entry) :
  distinct (filter P l) = filter P (distinct l).
Proof.
  induction l as [|x l IH]; [done|].
  cbn [distinct]. destruct (decide (P x)) as [Hx|Hx].
  - rewrite !filter_cons_True by done. cbn [distinct].
    by rewrite IH, filter_swap.
  - rewrite !filter_cons_False by done.
    by rewrite IH, filter_drop_other.
Qed.

Lemma elem_of_distinct (e : Entry) (l : list Entry) : e ∈ distinct l ↔ e ∈ l.
Proof.
  induction l as [|x l IH]; [done|].
  cbn [distinct]. rewrite !elem_of_cons, list_elem_of_filter, IH.
  destruct (decide (e = x)); tauto.
Qed.

Lemma NoDup_distinct (l : list Entry) : NoDup (distinct l).
Proof.
  induction l as [|x l IH]; cbn [distinct]; constructor.
  - rewrite list_elem_of_filter. tauto.
  - by apply NoDup_filter.
Qed.

Lemma filter_ne_absent (x : Entry) (l : list Entry) :
  x ∉ l → filter (λ y, y ≠ x) l = l.
Proof.
  induction l as [|y l IH]; [done|].
  intros [Hne Hx]%not_elem_of_cons.
  rewrite filter_cons_True by congruence. f_equal. by apply IH.
Qed.

Lemma distinct_NoDup (l : list Entry) : NoDup l → distinct l = l.
Proof.
  induction 1 as [|x l Hx _ IH]; [done|].
  cbn [distinct]. by rewrite IH, filter_ne_absent.
Qed.

(** The rows a join adds for one entry collapse to one row, or to none. *)
Lemma distinct_join_rows {A} (e : Entry) (rows : list A) (l : list Entry) :
  distinct (((λ _, e) <$> rows) ++ l)
  = if decide (rows = []) then distinct l
    else e :: filter (λ x, x ≠ e) (distinct l).
Proof.
  induction rows as [|r rows IH]; [done|].
  rewrite decide_False by done.
  cbn [fmap list_fmap app distinct]. cbn [fmap] in IH. rewrite IH.
  case_decide; [done|].
  rewrite filter_cons_False by tauto.
  rewrite list_filter_filter. f_equal. apply list_filter_iff. tauto.
Qed.

Lemma related_iff (rel : list (Entry * nat)) (vals : list nat) (e : Entry) :
  related rel vals e ↔ ∃ v, v ∈ vals ∧ (e, v) ∈ rel.
Proof.
  unfold related, links. rewrite Exists_exists. split.
  - intros ([e' v] & Hin & He & Hv). simpl in *. subst. eauto.
  - intros (v & Hv & Hin). exists (e, v). eauto.
Qed.

Lemma related_filter_nil (rel : list (Entry * nat)) (vals : list nat) (e : Entry) :
  filter (links vals e) rel = [] ↔ ¬ related rel vals e.
Proof.
  unfold related. rewrite Exists_exists. split.
  - intros Hnil (r & Hin & Hr).
    assert (r ∈ filter (links vals e) rel) as Hr' by by apply list_elem_of_filter.
    rewrite Hnil in Hr'. by apply elem_of_nil in Hr'.
  - intros Hno. induction rel as [|r rel IH]; [done|].
    rewrite filter_cons_False.
    + apply IH. intros (r' & ? & ?). apply Hno. exists r'. by rewrite elem_of_cons; auto.
    + intros Hr. apply Hno. exists r. by rewrite elem_of_cons; auto.
Qed.

(** After [distinct], a join with a relation is the filter on "some row
    links the entry". *)
Lemma distinct_filter_in (rel : list (Entry * nat)) (vals : list nat) (l : list Entry) :
  distinct (filter_in rel vals l) = filter (related rel vals) (distinct l).
Proof.
  unfold filter_in. induction l as [|x l IH]; [done|].
  cbn [flat_map distinct]. rewrite distinct_join_rows, IH.
  destruct (decide (related rel vals x)) as [Hx|Hx].
  - rewrite decide_False by (by rewrite related_filter_nil; tauto).
    rewrite filter_cons_True by done. by rewrite filter_swap.
  - rewrite decide_True by (by apply related_filter_nil).
    rewrite filter_cons_False by done. by rewrite filter_drop_other.
Qed.

(** With at least one tag, the union by tags restricts the queryset to
    the entries carrying one of them; rows are neither added nor merged. *)
Lemma get_union_by_model_filter (db : Database) (l : list Entry) (tags : list Tag) :
  tags ≠ [] →
  get_union_by_model db l tags = filter (related (tagged_items db) tags) l.
Proof.
  intros Htags. unfold get_union_by_model.
  destruct tags as [|t tags]; [done|]. cbn [length truth Nat.eqb negb].
  set (T := t :: tags). set (ids := remove_dups _).
  assert (Hids : ∀ e, e ∈ ids ↔ related (tagged_items db) T e).
  { intros e. unfold ids. rewrite elem_of_remove_dups, list_elem_of_fmap.
    unfold related, links. rewrite Exists_exists. split.
    - intros (r & -> & Hr). apply list_elem_of_filter in Hr as [? ?]. eauto.
    - intros (r & ? & <- & ?). exists r. split; [done|].
      by apply list_elem_of_filter. }
  case_decide as Hlen.
  - apply list_filter_iff, Hids.
  - destruct ids as [|i ids'] eqn:E; [|simpl in Hlen; lia].
    symmetry. clear Hlen. induction l as [|x l IH]; [done|].
    rewrite filter_cons_False; [done|].
    intros Hx. apply Hids in Hx. by apply elem_of_nil in Hx.
Qed.

Lemma filter_all {A} (P : A → Prop) `{!∀ x, Decision (P x)} (l : list A) :
  (∀ x, P x) → filter P l = l.
Proof.
  intros HP. induction l as [|x l IH]; [done|].
  rewrite filter_cons_True by done. by rewrite IH.
Qed.

Lemma filter_none {A} (P : A → Prop) `{!∀ x, Decision (P x)} (l : list A) :
  (∀ x, x ∈ l → ¬ P x) → filter P l = [].
Proof.
  intros HP. induction l as [|x l IH]; [done|].
  rewrite filter_cons_False by (apply HP; by left).
  apply IH. intros y Hy. apply HP. by right.
Qed.

Lemma truth_length_nil {A} (l : list A) : truth (length l) = false ↔ l = [].
Proof. destruct l; simpl; split; intros; done. Qed.

Lemma truth_length_cons {A} (l : list A) : truth (length l) = true ↔ l ≠ [].
Proof. destruct l; simpl; split; intros; done. Qed.

(** ** The latest-entries pipeline, stage by stage *)

Section latest_stages.
Import LatestEntriesPlugin CMSLatestEntriesPlugin.
Context (db : Database) (instance : t).

Lemma distinct_restrict_categories (l : list Entry) :
  distinct (restrict_categories db instance l)
  = filter (λ e, categories instance = [] ∨
                 related (entry_categories db) (effective_categories db instance) e)
           (distinct l).
Proof.
  unfold restrict_categories.
  destruct (truth (length (categories instance))) eqn:E.
  - apply truth_length_cons in E. rewrite distinct_filter_in.
    apply list_filter_iff. tauto.
  - apply truth_length_nil in E. rewrite filter_all; auto.
Qed.

Lemma distinct_restrict_authors (l : list Entry) :
  distinct (restrict_authors db instance l)
  = filter (λ e, authors instance = [] ∨
                 related (entry_authors db) (authors instance) e)
           (distinct l).
Proof.
  unfold restrict_authors.
  destruct (truth (length (authors instance))) eqn:E.
  - apply truth_length_cons in E. rewrite distinct_filter_in.
    apply list_filter_iff. tauto.
  - apply truth_length_nil in E. rewrite filter_all; auto.
Qed.

Lemma distinct_restrict_tags (l : list Entry) :
  distinct (restrict_tags db instance l)
  = filter (λ e, tags instance = [] ∨
                 related (tagged_items db) (tags instance) e)
           (distinct l).
Proof.
  unfold restrict_tags.
  destruct (truth (length (tags instance))) eqn:E.
  - apply truth_length_cons in E.
    rewrite get_union_by_model_filter, distinct_filter by done.
    apply list_filter_iff. tauto.
  - apply truth_length_nil in E. rewrite filter_all; auto.
Qed.

(** The queryset before the slice holds the published entries that pass
    the configured restrictions, once each, in the published order. *)
Lemma selection_filter :
  selection db instance = filter (passes db instance) (distinct (published db)).
Proof.
  unfold selection.
  rewrite distinct_restrict_tags, distinct_restrict_authors,
    distinct_restrict_categories, !list_filter_filter.
  apply list_filter_iff. unfold passes. tauto.
Qed.

Lemma NoDup_selection : NoDup (selection db instance).
Proof. apply NoDup_distinct. Qed.

Lemma NoDup_limited (l : list Entry) : NoDup l → NoDup (limited instance l).
Proof.
  intros Hl. unfold limited, slice_to.
  destruct (number_of_entries instance) as [n|]; [|done].
  destruct (truth n); [|done].
  eapply sublist_NoDup; [done|apply sublist_take].
Qed.
End latest_stages.

(** ** Contexts *)

Lemma context_update_alloc (context : ref) (d : list (string * Value))
    (h : Heap) (ctx : Context) :
  h !! context = Some ctx →
  context_update context d h = Some (<[context := dict_update d ctx]> h).
Proof. intros Hc. unfold context_update. by rewrite Hc. Qed.

Lemma dict_update_other (d : list (string * Value)) (ctx : Context) (k : string) :
  k ∉ d.*1 → dict_update d ctx !! k = ctx !! k.
Proof.
  unfold dict_update. revert ctx.
  induction d as [|[k' v] d IH]; intros ctx Hk; [done|].
  apply not_elem_of_cons in Hk as [Hne Hk]. simpl in *.
  rewrite IH by done. by rewrite lookup_insert_ne.
Qed.

Lemma returned_Some (key : string) (context : ref) (ctx : Context) (h : Heap) :
  returned key (Some (context, <[context := ctx]> h)) = ctx !! key.
Proof. unfold returned, returned_context. simpl. by rewrite lookup_insert_eq. Qed.

(** ** What each [render] returns *)

(** Runs a [render] whose context object is allocated. *)
Ltac run_render H :=
  unfold plugin_render, CMSLatestEntriesPlugin.render,
    CMSSelectedEntriesPlugin.render, CMSRandomEntriesPlugin.render,
    CMSQueryEntriesPlugin.render, CMSCalendarEntriesPlugin.render,
    CMSSearchPlugin.render, CMSToolsPlugin.render;
  rewrite (context_update_alloc _ _ _ _ H); cbn [mbind option_bind].

(** Reads a variable of the updated dictionary. *)
Ltac read_dict :=
  unfold dict_update; cbn [foldl fst snd]; simplify_map_eq; try done.

Lemma latest_returned_entries (db : Database) (context : ref)
    (instance : LatestEntriesPlugin.t) (placeholder : Value) (h : Heap)
    (ctx : Context) :
  h !! context = Some ctx →
  returned_entries (CMSLatestEntriesPlugin.render db context instance placeholder h)
  = Some (CMSLatestEntriesPlugin.limited instance
            (CMSLatestEntriesPlugin.selection db instance)).
Proof.
  intros Hc. run_render Hc. unfold returned_entries.
  rewrite returned_Some. by read_dict.
Qed.

Lemma query_returned_entries (db : Database) (context : ref)
    (instance : QueryEntriesPlugin.t) (placeholder : Value) (h : Heap)
    (ctx : Context) :
  h !! context = Some ctx →
  returned_entries (CMSQueryEntriesPlugin.render db context instance placeholder h)
  = Some (slice_to (QueryEntriesPlugin.number_of_entries instance)
            (search db (QueryEntriesPlugin.query instance))).
Proof.
  intros Hc. run_render Hc. unfold returned_entries.
  rewrite returned_Some. by read_dict.
Qed.

Lemma occurrences_NoDup (e : Entry) (l : list Entry) :
  NoDup l → occurrences e l = if decide (e ∈ l) then 1 else 0.
Proof.
  unfold occurrences. induction 1 as [|x l Hx Hl IH]; [done|].
  destruct (decide (x = e)) as [->|Hne].
  - rewrite filter_cons_True by done. simpl.
    rewrite decide_True by (by left).
    rewrite decide_False in IH by done. by rewrite IH.
  - rewrite filter_cons_False by done. rewrite IH.
    apply decide_ext. rewrite elem_of_cons. intuition congruence.
Qed.

(** ** Properties of the render operations *)

(** C9.  Every [render] of the seven registered plugins returns the
    reference of the context it was given; the object behind it is the
    given context updated in place (no other object of the heap
    changes), it holds the instance under ['object'] and the placeholder
    under ['placeholder'], and every variable that is not among the keys
    the plugin adds has the value it had before. *)
Theorem render_returns_updated_context (db : Database) (p : Plugin)
    (context : ref) (placeholder : Value) (h : Heap) (ctx : Context) :
  h !! context = Some ctx →
  ∃ ctx' : Context,
    plugin_render db p context placeholder h
      = Some (context, <[context := ctx']> h) ∧
    ctx' !! "object" = Some (instance_value p) ∧
    ctx' !! "placeholder" = Some placeholder ∧
    (∀ k, k ∈ added_keys p → is_Some (ctx' !! k)) ∧
    (∀ k, k ∉ added_keys p → ctx' !! k = ctx !! k).
Proof.
  intros Hc.
  destruct p; run_render Hc; (eexists; split; [reflexivity|]);
    (split; [by read_dict|]); (split; [by read_dict|]);
    (split; [|intros k Hk; by apply dict_update_other]);
    intros k Hk; cbn [added_keys] in Hk;
    repeat (apply elem_of_cons in Hk as [->|Hk]; [read_dict; eauto|]);
    by apply elem_of_nil in Hk.
Qed.

Lemma render_returns_updated_context_witness :
  page !! 1%positive = Some page_context ∧
  ∃ ctx' : Context,
    plugin_render blog (Latest teaser) 1 slot page
      = Some (1%positive, <[1%positive := ctx']> page) ∧
    ctx' !! "object" = Some (instance_value (Latest teaser)) ∧
    ctx' !! "placeholder" = Some slot ∧
    (∀ k, k ∈ added_keys (Latest teaser) → is_Some (ctx' !! k)) ∧
    (∀ k, k ∉ added_keys (Latest teaser) → ctx' !! k = page_context !! k).
Proof.
  split; [reflexivity|].
  apply (render_returns_updated_context blog (Latest teaser) 1 slot page page_context).
  reflexivity.
Defined.

Lemma elem_of_related_all (table rows : list Entry) (e : Entry) :
  e ∈ related_all table rows ↔ e ∈ rows ∧ e ∈ table.
Proof.
  unfold related_all. induction table as [|x table IH].
  - simpl. split; [by intros ?%elem_of_nil|by intros [_ ?%elem_of_nil]].
  - cbn [flat_map]. rewrite elem_of_app, list_elem_of_filter, IH, elem_of_cons.
    split.
    + intros [[-> ?]|[? ?]]; auto.
    + intros [? [->|?]]; auto.
Qed.

Lemma occurrences_app (e : Entry) (l k : list Entry) :
  occurrences e (l ++ k) = occurrences e l + occurrences e k.
Proof. unfold occurrences. by rewrite filter_app, length_app. Qed.

Lemma occurrences_absent (e : Entry) (l : list Entry) :
  e ∉ l → occurrences e l = 0.
Proof.
  intros He. unfold occurrences. rewrite filter_none; [done|].
  by intros x Hx ->.
Qed.

(** The join merges nothing and adds nothing: an entry of the table
    comes out as often as the relation names it. *)
Lemma occurrences_related_all (table rows : list Entry) (e : Entry) :
  NoDup table → e ∈ table →
  occurrences e (related_all table rows) = occurrences e rows.
Proof.
  unfold related_all. induction 1 as [|x table Hx Hnodup IH]; intros He.
  - by apply elem_of_nil in He.
  - cbn [flat_map]. rewrite occurrences_app.
    destruct (decide (e = x)) as [->|Hne].
    + rewrite (occurrences_absent x (flat_map _ table)).
      * unfold occurrences at 1. rewrite list_filter_filter.
        rewrite Nat.add_0_r. unfold occurrences. f_equal.
        apply list_filter_iff. tauto.
      * intros Hin. apply (elem_of_related_all table rows x) in Hin. tauto.
    + rewrite occurrences_absent.
      * apply IH. apply elem_of_cons in He as [?|?]; [done|done].
      * intros [-> _]%list_elem_of_filter. done.
Qed.

Lemma related_all_filter (table rows : list Entry) :
  NoDup rows →
  related_all table rows = filter (λ e, e ∈ rows) table.
Proof.
  intros Hrows. unfold related_all.
  induction table as [|x table IH]; [done|].
  cbn [flat_map]. rewrite IH. destruct (decide (x ∈ rows)) as [Hx|Hx].
  - rewrite filter_cons_True by done.
    replace (filter (λ r, r = x) rows) with [x]; [done|].
    clear IH. induction Hrows as [|y rows Hy Hnodup IHrows].
    + by apply elem_of_nil in Hx.
    + destruct (decide (y = x)) as [->|Hne].
      * rewrite filter_cons_True by done.
        rewrite filter_none; [done|]. by intros z Hz ->.
      * rewrite filter_cons_False by done. apply IHrows.
        apply elem_of_cons in Hx as [?|?]; [congruence|done].
  - rewrite filter_cons_False by done.
    rewrite filter_none; [done|]. by intros z Hz ->.
Qed.

(** C4, as the code has it.  The selected-entries [render] hands over
    [instance.entries.all()] as it is: exactly the entries the relation
    of the instance names, published or not, each as often as the
    relation names it (no [distinct()], no filter and no slice is
    applied), in the default ordering of the entries and not in the
    order in which the selection was stored. *)
Theorem selected_entries_all_related (db : Database) (context : ref)
    (instance : SelectedEntriesPlugin.t) (placeholder : Value) (h : Heap)
    (ctx : Context) :
  h !! context = Some ctx →
  ∃ out,
    returned_entries
      (CMSSelectedEntriesPlugin.render db context instance placeholder h)
    = Some out ∧
    (∀ e, e ∈ out ↔
          e ∈ SelectedEntriesPlugin.entries instance ∧ e ∈ all_entries db) ∧
    (NoDup (all_entries db) →
     ∀ e, e ∈ all_entries db →
          occurrences e out
          = occurrences e (SelectedEntriesPlugin.entries instance)) ∧
    (NoDup (SelectedEntriesPlugin.entries instance) →
     out = filter (λ e, e ∈ SelectedEntriesPlugin.entries instance)
             (all_entries db) ∧
     out `sublist_of` all_entries db).
Proof.
  intros Hc. eexists. split.
  { run_render Hc. unfold returned_entries.
    rewrite returned_Some. by read_dict. }
  split; [apply elem_of_related_all|]. split.
  - intros Hnodup e He. by apply occurrences_related_all.
  - intros Hrows. rewrite related_all_filter by done.
    split; [done|apply sublist_filter].
Qed.

Lemma selected_entries_all_related_witness :
  page !! 1%positive = Some page_context ∧
  NoDup (SelectedEntriesPlugin.entries selected_instance) ∧
  ∃ out,
    returned_entries
      (CMSSelectedEntriesPlugin.render blog 1 selected_instance slot page)
    = Some out ∧
    (∀ e, e ∈ out ↔
          e ∈ SelectedEntriesPlugin.entries selected_instance ∧
          e ∈ all_entries blog) ∧
    out = filter (λ e, e ∈ SelectedEntriesPlugin.entries selected_instance)
            (all_entries blog) ∧
    out `sublist_of` all_entries blog.
Proof.
  assert (NoDup (SelectedEntriesPlugin.entries selected_instance)) as Hrows
    by (apply (bool_decide_unpack _); vm_compute; exact I).
  split; [reflexivity|]. split; [done|].
  destruct (selected_entries_all_related blog 1 selected_instance slot page
              page_context eq_refl) as (out & Hout & Hmem & _ & Horder).
  exists out. split; [done|]. split; [done|]. by apply Horder.
Defined.

(** C4, as stated, fails: the selection was stored in the order 4, 6, 1
    and is handed over in the order of the entries, 1, 4, 6. *)
Lemma selected_entries_not_in_stored_order :
  returned_entries
    (CMSSelectedEntriesPlugin.render blog 1 selected_instance slot page)
  = Some [1; 4; 6] ∧
  returned_entries
    (CMSSelectedEntriesPlugin.render blog 1 selected_instance slot page)
  ≠ Some (SelectedEntriesPlugin.entries selected_instance).
Proof.
  split; [vm_compute; reflexivity|]. vm_compute. discriminate.
Qed.

(** C8.  The random-entries [render] stores a template name and touches
    no entries: ['template_to_render'] is the template of the instance
    when that is a non-empty string and
    ['zinnia/tags/random_entries.html'] otherwise, and the ['entries']
    variable of the context is left as it was. *)
Theorem random_template_or_default (context : ref)
    (instance : RandomEntriesPlugin.t) (placeholder : Value) (h : Heap)
    (ctx : Context) :
  h !! context = Some ctx →
  let r := CMSRandomEntriesPlugin.render context instance placeholder h in
  (RandomEntriesPlugin.template_to_render instance ≠ "" →
   returned "template_to_render" r
   = Some (VStr (RandomEntriesPlugin.template_to_render instance))) ∧
  (RandomEntriesPlugin.template_to_render instance = "" →
   returned "template_to_render" r
   = Some (VStr "zinnia/tags/random_entries.html")) ∧
  returned "entries" r = ctx !! "entries".
Proof.
  intros Hc r. subst r. run_render Hc. rewrite !returned_Some.
  unfold str_or. repeat split.
  - intros Hne. rewrite decide_False by done. by read_dict.
  - intros ->. by read_dict.
  - by read_dict.
Qed.

Lemma random_template_or_default_witness :
  page !! 1%positive = Some page_context ∧
  (returned "template_to_render"
     (CMSRandomEntriesPlugin.render 1 (random_instance "blog/random.html") slot page)
   = Some (VStr "blog/random.html")) ∧
  (returned "template_to_render"
     (CMSRandomEntriesPlugin.render 1 (random_instance "") slot page)
   = Some (VStr "zinnia/tags/random_entries.html")).
Proof.
  split; [reflexivity|]. split.
  - apply (random_template_or_default 1 (random_instance "blog/random.html")
             slot page page_context); [reflexivity|discriminate].
  - apply (random_template_or_default 1 (random_instance "")
             slot page page_context); reflexivity.
Defined.

(** C10.  Whatever the categories, authors and tags of a latest-entries
    instance are (all empty included), no entry occurs twice in the
    entries [render] hands over: [distinct()] is applied on every path. *)
Theorem latest_entries_no_duplicates (db : Database) (context : ref)
    (instance : LatestEntriesPlugin.t) (placeholder : Value) (h : Heap)
    (ctx : Context) :
  h !! context = Some ctx →
  ∃ out,
    returned_entries
      (CMSLatestEntriesPlugin.render db context instance placeholder h) = Some out ∧
    NoDup out.
Proof.
  intros Hc. eexists. split; [exact (latest_returned_entries _ _ _ _ _ _ Hc)|].
  apply NoDup_limited, NoDup_selection.
Qed.

Lemma latest_entries_no_duplicates_witness :
  page !! 1%positive = Some page_context ∧
  ∃ out,
    returned_entries (CMSLatestEntriesPlugin.render blog 1 teaser slot page) = Some out ∧
    NoDup out.
Proof.
  split; [reflexivity|].
  apply (latest_entries_no_duplicates blog 1 teaser slot page page_context).
  reflexivity.
Defined.

Lemma truncated_slice (limit : option nat) (pre : list Entry) :
  truncated limit pre (slice_to limit pre).
Proof.
  split.
  - intros L -> HL. unfold slice_to.
    assert (truth L = true) as -> by (destruct L; [lia|done]).
    split; [apply prefix_take|apply length_take].
  - by intros [-> | ->].
Qed.

(** C3.  In the latest-entries and in the query-entries [render], a
    limit [L > 0] cuts the result down to its first [L] entries, in the
    order they had before (for the latest entries this result is already
    free of duplicates); a limit that is 0 or unset hands the result
    over whole. *)
Theorem limit_truncates (db : Database) (context : ref) (placeholder : Value)
    (h : Heap) (ctx : Context) :
  h !! context = Some ctx →
  (∀ instance : LatestEntriesPlugin.t,
     NoDup (CMSLatestEntriesPlugin.selection db instance) ∧
     ∃ out,
       returned_entries
         (CMSLatestEntriesPlugin.render db context instance placeholder h)
       = Some out ∧
       truncated (LatestEntriesPlugin.number_of_entries instance)
         (CMSLatestEntriesPlugin.selection db instance) out) ∧
  (∀ instance : QueryEntriesPlugin.t,
     ∃ out,
       returned_entries
         (CMSQueryEntriesPlugin.render db context instance placeholder h)
       = Some out ∧
       truncated (QueryEntriesPlugin.number_of_entries instance)
         (search db (QueryEntriesPlugin.query instance)) out).
Proof.
  intros Hc. split; intros instance.
  - split; [apply NoDup_selection|]. eexists.
    split; [exact (latest_returned_entries _ _ _ _ _ _ Hc)|].
    apply truncated_slice.
  - eexists. split; [exact (query_returned_entries _ _ _ _ _ _ Hc)|].
    apply truncated_slice.
Qed.

Lemma limit_truncates_witness :
  page !! 1%positive = Some page_context ∧
  (∃ out,
     returned_entries (CMSLatestEntriesPlugin.render blog 1 teaser slot page)
     = Some out ∧
     truncated (Some 2) (CMSLatestEntriesPlugin.selection blog teaser) out) ∧
  (∃ out,
     returned_entries
       (CMSQueryEntriesPlugin.render blog 1 (query_instance None) slot page)
     = Some out ∧
     truncated None [2; 4; 5] out).
Proof.
  split; [reflexivity|].
  pose proof (limit_truncates blog 1 slot page page_context eq_refl) as [Hl Hq].
  split; [apply (Hl teaser)|apply (Hq (query_instance None))].
Defined.

(** C2.  In the latest-entries [render], a criterion whose configured
    set is empty is a no-op: with no category (no author, no tag) the
    entries handed over are those of the pipeline without the category
    (author, tag) step, and that step returns the queryset it is given;
    with all three sets empty every published entry is handed over, up
    to [distinct()] and the limit. *)
Theorem empty_criterion_is_noop (db : Database) (context : ref)
    (instance : LatestEntriesPlugin.t) (placeholder : Value) (h : Heap)
    (ctx : Context) :
  h !! context = Some ctx →
  let out :=
    returned_entries
      (CMSLatestEntriesPlugin.render db context instance placeholder h) in
  let cut := CMSLatestEntriesPlugin.limited instance in
  let by_categories := CMSLatestEntriesPlugin.restrict_categories db instance in
  let by_authors := CMSLatestEntriesPlugin.restrict_authors db instance in
  let by_tags := CMSLatestEntriesPlugin.restrict_tags db instance in
  (LatestEntriesPlugin.categories instance = [] →
   (∀ entries, by_categories entries = entries) ∧
   out = Some (cut (distinct (by_tags (by_authors (published db)))))) ∧
  (LatestEntriesPlugin.authors instance = [] →
   (∀ entries, by_authors entries = entries) ∧
   out = Some (cut (distinct (by_tags (by_categories (published db)))))) ∧
  (LatestEntriesPlugin.tags instance = [] →
   (∀ entries, by_tags entries = entries) ∧
   out = Some (cut (distinct (by_authors (by_categories (published db)))))) ∧
  (LatestEntriesPlugin.categories instance = [] →
   LatestEntriesPlugin.authors instance = [] →
   LatestEntriesPlugin.tags instance = [] →
   out = Some (cut (distinct (published db)))).
Proof.
  intros Hc out cut by_categories by_authors by_tags.
  subst out cut by_categories by_authors by_tags.
  rewrite (latest_returned_entries _ _ _ _ _ _ Hc).
  unfold CMSLatestEntriesPlugin.selection,
    CMSLatestEntriesPlugin.restrict_categories,
    CMSLatestEntriesPlugin.restrict_authors,
    CMSLatestEntriesPlugin.restrict_tags.
  split; [|split; [|split]].
  - intros Hnil. by rewrite Hnil.
  - intros Hnil. by rewrite Hnil.
  - intros Hnil. by rewrite Hnil.
  - intros Hcat Hauth Htag. by rewrite Hcat, Hauth, Htag.
Qed.

Lemma empty_criterion_is_noop_witness :
  page !! 1%positive = Some page_context ∧
  returned_entries
    (CMSLatestEntriesPlugin.render blog 1 (latest [] true [20] [31] (Some 2)) slot page)
  = Some (CMSLatestEntriesPlugin.limited (latest [] true [20] [31] (Some 2))
            (distinct
               (CMSLatestEntriesPlugin.restrict_tags blog (latest [] true [20] [31] (Some 2))
                  (CMSLatestEntriesPlugin.restrict_authors blog
                     (latest [] true [20] [31] (Some 2)) (published blog))))) ∧
  returned_entries
    (CMSLatestEntriesPlugin.render blog 1 (latest [] true [] [] None) slot page)
  = Some (CMSLatestEntriesPlugin.limited (latest [] true [] [] None)
            (distinct (published blog))).
Proof.
  split; [reflexivity|]. split.
  - destruct (empty_criterion_is_noop blog 1 (latest [] true [20] [31] (Some 2))
                slot page page_context eq_refl) as (Hcat & _).
    apply Hcat. reflexivity.
  - destruct (empty_criterion_is_noop blog 1 (latest [] true [] [] None)
                slot page page_context eq_refl) as (_ & _ & _ & Hall).
    apply Hall; reflexivity.
Defined.

(** ** Membership in the stages *)

Lemma elem_of_filter_in (rel : list (Entry * nat)) (vals : list nat)
    (l : list Entry) (e : Entry) :
  e ∈ filter_in rel vals l ↔ e ∈ l ∧ related rel vals e.
Proof.
  rewrite <-elem_of_distinct, distinct_filter_in, list_elem_of_filter,
    elem_of_distinct. tauto.
Qed.

Lemma elem_of_selection (db : Database) (instance : LatestEntriesPlugin.t)
    (e : Entry) :
  e ∈ CMSLatestEntriesPlugin.selection db instance
  ↔ e ∈ published db ∧ passes db instance e.
Proof.
  rewrite selection_filter, list_elem_of_filter, elem_of_distinct. tauto.
Qed.

Lemma limited_subseteq (instance : LatestEntriesPlugin.t) (l : list Entry) :
  CMSLatestEntriesPlugin.limited instance l ⊆ l.
Proof.
  unfold CMSLatestEntriesPlugin.limited, slice_to.
  destruct (LatestEntriesPlugin.number_of_entries instance) as [n|]; [|done].
  destruct (truth n); [|done]. apply subseteq_take.
Qed.

Lemma limited_unset (instance : LatestEntriesPlugin.t) (l : list Entry) :
  unlimited (LatestEntriesPlugin.number_of_entries instance) →
  CMSLatestEntriesPlugin.limited instance l = l.
Proof.
  unfold CMSLatestEntriesPlugin.limited. by intros [-> | ->].
Qed.

Lemma related_mono (rel : list (Entry * nat)) (vals vals' : list nat) (e : Entry) :
  vals ⊆ vals' → related rel vals e → related rel vals' e.
Proof.
  intros Hsub. rewrite !related_iff. intros (v & Hv & Hin). eauto.
Qed.

Section narrowing.
Import LatestEntriesPlugin CMSLatestEntriesPlugin.
Context (db : Database) (instance : t).

Lemma restrict_categories_subseteq (l : list Entry) :
  restrict_categories db instance l ⊆ l.
Proof.
  unfold restrict_categories. destruct (truth _); [|done].
  intros e. rewrite elem_of_filter_in. tauto.
Qed.

Lemma restrict_authors_subseteq (l : list Entry) :
  restrict_authors db instance l ⊆ l.
Proof.
  unfold restrict_authors. destruct (truth _); [|done].
  intros e. rewrite elem_of_filter_in. tauto.
Qed.

Lemma restrict_tags_subseteq (l : list Entry) :
  restrict_tags db instance l ⊆ l.
Proof.
  unfold restrict_tags. destruct (truth _) eqn:E; [|done].
  apply truth_length_cons in E. rewrite get_union_by_model_filter by done.
  apply list_subseteq_filter.
Qed.
End narrowing.

(** C7, as the code has it.  The entries the latest-entries [render]
    hands over are the published entries that satisfy the category
    restriction and the author restriction and the tag restriction
    (those that are configured), once each and in the published order,
    cut to the limit when one is set: every entry handed over is such an
    entry, and without a limit these are exactly the entries handed
    over.  Each restriction narrows the queryset it is applied to. *)
Theorem restrictions_compose_conjunctively (db : Database) (context : ref)
    (instance : LatestEntriesPlugin.t) (placeholder : Value) (h : Heap)
    (ctx : Context) :
  h !! context = Some ctx →
  ∃ out,
    returned_entries
      (CMSLatestEntriesPlugin.render db context instance placeholder h)
    = Some out ∧
    out = CMSLatestEntriesPlugin.limited instance
            (filter (passes db instance) (distinct (published db))) ∧
    (∀ e, e ∈ out → e ∈ published db ∧ passes db instance e) ∧
    (unlimited (LatestEntriesPlugin.number_of_entries instance) →
     ∀ e, e ∈ out ↔ e ∈ published db ∧ passes db instance e) ∧
    (∀ entries,
       CMSLatestEntriesPlugin.restrict_categories db instance entries ⊆ entries ∧
       CMSLatestEntriesPlugin.restrict_authors db instance entries ⊆ entries ∧
       CMSLatestEntriesPlugin.restrict_tags db instance entries ⊆ entries).
Proof.
  intros Hc. eexists.
  split; [exact (latest_returned_entries _ _ _ _ _ _ Hc)|].
  split; [by rewrite selection_filter|].
  split; [|split].
  - intros e He. apply elem_of_selection. by eapply limited_subseteq.
  - intros Hlim e.
    rewrite limited_unset by done. apply elem_of_selection.
  - intros entries.
    auto using restrict_categories_subseteq, restrict_authors_subseteq,
      restrict_tags_subseteq.
Qed.

Lemma restrictions_compose_conjunctively_witness :
  page !! 1%positive = Some page_context ∧
  ∃ out,
    returned_entries (CMSLatestEntriesPlugin.render blog 1 archive slot page)
    = Some out ∧
    out = CMSLatestEntriesPlugin.limited archive
            (filter (passes blog archive) (distinct (published blog))) ∧
    (∀ e, e ∈ out → e ∈ published blog ∧ passes blog archive e) ∧
    (unlimited (LatestEntriesPlugin.number_of_entries archive) →
     ∀ e, e ∈ out ↔ e ∈ published blog ∧ passes blog archive e) ∧
    (∀ entries,
       CMSLatestEntriesPlugin.restrict_categories blog archive entries ⊆ entries ∧
       CMSLatestEntriesPlugin.restrict_authors blog archive entries ⊆ entries ∧
       CMSLatestEntriesPlugin.restrict_tags blog archive entries ⊆ entries).
Proof.
  split; [reflexivity|].
  apply (restrictions_compose_conjunctively blog 1 archive slot page page_context).
  reflexivity.
Defined.

(** C7, as stated, fails under a limit: entry 4 is published and
    satisfies the category, the author and the tag restriction of
    [teaser], but the limit of 2 keeps entries 1 and 2 only. *)
Lemma passing_entry_cut_by_limit :
  4 ∈ published blog ∧ passes blog teaser 4 ∧
  ¬ ∃ out,
      returned_entries (CMSLatestEntriesPlugin.render blog 1 teaser slot page)
      = Some out ∧
      4 ∈ out.
Proof.
  split; [|split].
  - apply (bool_decide_unpack _). vm_compute. exact I.
  - apply (bool_decide_unpack _). vm_compute. exact I.
  - intros (out & Hout & Hin). vm_compute in Hout.
    injection Hout as <-. revert Hin. apply (bool_decide_unpack _).
    vm_compute. exact I.
Qed.

Lemma occurrences_take_le (e : Entry) (n : nat) (l : list Entry) :
  occurrences e (take n l) ≤ occurrences e l.
Proof.
  unfold occurrences. rewrite <-(take_drop n l) at 2.
  rewrite filter_app, length_app. lia.
Qed.

(** C1, as the code has it.  In the latest-entries [render], a published
    entry that satisfies the category and the author restriction (those
    that are configured) and carries at least one tag of the tag set
    occurs exactly once in the result before the slice, however many of
    the tags it carries; the entries handed over are that result cut by
    the limit, so the entry occurs in them at most once, and exactly
    once when no limit is configured. *)
Theorem tagged_entry_exactly_once (db : Database) (context : ref)
    (instance : LatestEntriesPlugin.t) (placeholder : Value) (h : Heap)
    (ctx : Context) (e : Entry) :
  h !! context = Some ctx →
  e ∈ published db →
  (LatestEntriesPlugin.categories instance = [] ∨
   related (entry_categories db)
     (CMSLatestEntriesPlugin.effective_categories db instance) e) →
  (LatestEntriesPlugin.authors instance = [] ∨
   related (entry_authors db) (LatestEntriesPlugin.authors instance) e) →
  (∃ t, t ∈ LatestEntriesPlugin.tags instance ∧ (e, t) ∈ tagged_items db) →
  occurrences e (CMSLatestEntriesPlugin.selection db instance) = 1 ∧
  ∃ out,
    returned_entries
      (CMSLatestEntriesPlugin.render db context instance placeholder h)
    = Some out ∧
    truncated (LatestEntriesPlugin.number_of_entries instance)
      (CMSLatestEntriesPlugin.selection db instance) out ∧
    occurrences e out ≤ 1 ∧
    (unlimited (LatestEntriesPlugin.number_of_entries instance) →
     occurrences e out = 1).
Proof.
  intros Hc Hpub Hcat Hauth Htag%related_iff.
  assert (occurrences e (CMSLatestEntriesPlugin.selection db instance) = 1)
    as Honce.
  { rewrite occurrences_NoDup by apply NoDup_selection.
    rewrite decide_True; [done|].
    apply elem_of_selection. unfold passes. tauto. }
  split; [done|]. eexists.
  split; [exact (latest_returned_entries _ _ _ _ _ _ Hc)|].
  split; [apply truncated_slice|]. split.
  - unfold CMSLatestEntriesPlugin.limited, slice_to.
    destruct (LatestEntriesPlugin.number_of_entries instance) as [n|]; [|lia].
    destruct (truth n); [|lia].
    rewrite <-Honce. apply occurrences_take_le.
  - intros Hlim. by rewrite limited_unset.
Qed.

Lemma tagged_entry_exactly_once_witness :
  page !! 1%positive = Some page_context ∧
  occurrences 4 (CMSLatestEntriesPlugin.selection blog archive) = 1 ∧
  ∃ out,
    returned_entries (CMSLatestEntriesPlugin.render blog 1 archive slot page)
    = Some out ∧
    truncated (LatestEntriesPlugin.number_of_entries archive)
      (CMSLatestEntriesPlugin.selection blog archive) out ∧
    occurrences 4 out ≤ 1 ∧
    (unlimited (LatestEntriesPlugin.number_of_entries archive) →
     occurrences 4 out = 1).
Proof.
  split; [reflexivity|].
  apply (tagged_entry_exactly_once blog 1 archive slot page page_context 4).
  - reflexivity.
  - apply (bool_decide_unpack _). vm_compute. exact I.
  - right. apply (bool_decide_unpack _). vm_compute. exact I.
  - right. apply (bool_decide_unpack _). vm_compute. exact I.
  - exists 31. split; apply (bool_decide_unpack _); vm_compute; exact I.
Defined.

(** C1, as stated, fails: with the [sidebar] configuration the entries
    1, 3, 4 and 6 each carry a tag of the tag set and none of them is
    handed over.  Entry 1 is in none of the categories, entry 3 is by
    another author, entry 4 lies behind the limit and entry 6 is not
    published. *)
Lemma tagged_entries_left_out :
  Forall
    (λ e,
       (∃ t, t ∈ LatestEntriesPlugin.tags sidebar ∧ (e, t) ∈ tagged_items blog) ∧
       ¬ ∃ out,
           returned_entries
             (CMSLatestEntriesPlugin.render blog 1 sidebar slot page)
           = Some out ∧
           occurrences e out = 1)
    [1; 3; 4; 6].
Proof.
  assert (Hnot : ∀ e, occurrences e [2] ≠ 1 →
    ¬ ∃ out,
        returned_entries (CMSLatestEntriesPlugin.render blog 1 sidebar slot page)
        = Some out ∧ occurrences e out = 1).
  { intros e He (out & Hout & Hocc). vm_compute in Hout.
    injection Hout as <-. done. }
  repeat constructor; try (apply Hnot; vm_compute; discriminate).
  - exists 30. split; apply (bool_decide_unpack _); vm_compute; exact I.
  - exists 30. split; apply (bool_decide_unpack _); vm_compute; exact I.
  - exists 31. split; apply (bool_decide_unpack _); vm_compute; exact I.
  - exists 30. split; apply (bool_decide_unpack _); vm_compute; exact I.
Qed.

Lemma effective_categories_grow (db : Database) (instance : LatestEntriesPlugin.t) :
  CMSLatestEntriesPlugin.effective_categories db (with_subcategories false instance)
  ⊆ CMSLatestEntriesPlugin.effective_categories db (with_subcategories true instance).
Proof.
  unfold CMSLatestEntriesPlugin.effective_categories. simpl.
  intros c Hc. apply elem_of_app. by left.
Qed.

Lemma passes_grow (db : Database) (instance : LatestEntriesPlugin.t) (e : Entry) :
  passes db (with_subcategories false instance) e →
  passes db (with_subcategories true instance) e.
Proof.
  unfold passes. cbn [with_subcategories LatestEntriesPlugin.categories
    LatestEntriesPlugin.authors LatestEntriesPlugin.tags].
  intros ([Hcat|Hcat] & Hauth & Htag); (split; [|done]); [by left|right].
  eapply related_mono; [apply effective_categories_grow|done].
Qed.

(** C6, as the code has it.  With the include-subcategories flag set,
    the categories the entries are looked up in contain those looked up
    with the flag cleared; so does the result before the slice, and so
    do the entries handed over when no limit is configured. *)
Theorem subcategories_only_add (db : Database) (context : ref)
    (instance : LatestEntriesPlugin.t) (placeholder : Value) (h : Heap)
    (ctx : Context) :
  h !! context = Some ctx →
  CMSLatestEntriesPlugin.effective_categories db (with_subcategories false instance)
  ⊆ CMSLatestEntriesPlugin.effective_categories db (with_subcategories true instance) ∧
  CMSLatestEntriesPlugin.selection db (with_subcategories false instance)
  ⊆ CMSLatestEntriesPlugin.selection db (with_subcategories true instance) ∧
  (unlimited (LatestEntriesPlugin.number_of_entries instance) →
   ∃ off on,
     returned_entries
       (CMSLatestEntriesPlugin.render db context
          (with_subcategories false instance) placeholder h) = Some off ∧
     returned_entries
       (CMSLatestEntriesPlugin.render db context
          (with_subcategories true instance) placeholder h) = Some on ∧
     off ⊆ on).
Proof.
  intros Hc.
  assert (CMSLatestEntriesPlugin.selection db (with_subcategories false instance)
          ⊆ CMSLatestEntriesPlugin.selection db (with_subcategories true instance))
    as Hsel.
  { intros e. rewrite !elem_of_selection. intros [? ?].
    split; [done|]. by apply passes_grow. }
  split; [apply effective_categories_grow|]. split; [done|].
  intros Hlim. do 2 eexists.
  split; [exact (latest_returned_entries _ _ _ _ _ _ Hc)|].
  split; [exact (latest_returned_entries _ _ _ _ _ _ Hc)|].
  by rewrite !limited_unset.
Qed.

Lemma subcategories_only_add_witness :
  page !! 1%positive = Some page_context ∧
  unlimited (LatestEntriesPlugin.number_of_entries archive) ∧
  ∃ off on,
    returned_entries
      (CMSLatestEntriesPlugin.render blog 1
         (with_subcategories false archive) slot page) = Some off ∧
    returned_entries
      (CMSLatestEntriesPlugin.render blog 1
         (with_subcategories true archive) slot page) = Some on ∧
    off ⊆ on.
Proof.
  split; [reflexivity|]. split; [by left|].
  destruct (subcategories_only_add blog 1 archive slot page page_context eq_refl)
    as (_ & _ & Hout).
  apply Hout. by left.
Defined.

(** C6, as stated, fails under a limit: [headline] asks for the first
    entry of category 10.  With the flag cleared this is entry 2; with
    the flag set entry 1, of the child category 11, comes first and
    entry 2 is no longer handed over. *)
Lemma subcategories_push_entry_out :
  ∃ off on,
    returned_entries
      (CMSLatestEntriesPlugin.render blog 1
         (with_subcategories false headline) slot page) = Some off ∧
    returned_entries
      (CMSLatestEntriesPlugin.render blog 1
         (with_subcategories true headline) slot page) = Some on ∧
    2 ∈ off ∧ 2 ∉ on.
Proof.
  exists [2], [1]. repeat split; try (vm_compute; reflexivity).
  - by left.
  - apply (bool_decide_unpack _). vm_compute. exact I.
Qed.

(** C5, as the code has it.  The calendar [render] reads no clock and
    computes no default: the year and the month the template finds in
    the returned context are those of the instance, unset ones staying
    unset, and besides ['object'] and ['placeholder'] every variable of
    the context is left as it was. *)
Theorem calendar_parameters_raw (context : ref)
    (instance : CalendarEntriesPlugin.t) (placeholder : Value) (h : Heap)
    (ctx : Context) :
  h !! context = Some ctx →
  let r := CMSCalendarEntriesPlugin.render context instance placeholder h in
  calendar_parameters r
  = Some (CalendarEntriesPlugin.year instance,
          CalendarEntriesPlugin.month instance) ∧
  (∀ k, k ≠ "object" → k ≠ "placeholder" → returned k r = ctx !! k).
Proof.
  intros Hc r. subst r. run_render Hc. unfold calendar_parameters.
  rewrite returned_Some. split; [by read_dict|].
  intros k Ho Hp. rewrite returned_Some. apply dict_update_other.
  cbn [fmap list_fmap fst]. rewrite !not_elem_of_cons.
  repeat split; try done. apply not_elem_of_nil.
Qed.

Lemma calendar_parameters_raw_witness :
  page !! 1%positive = Some page_context ∧
  calendar_parameters
    (CMSCalendarEntriesPlugin.render 1 calendar_instance slot page)
  = Some (None, None).
Proof.
  split; [reflexivity|].
  apply (calendar_parameters_raw 1 calendar_instance slot page page_context).
  reflexivity.
Defined.

(** C5, as stated, fails: for a calendar with neither year nor month,
    whatever the current date is, no year and no month reach the
    template, neither through ['object'] nor as variables of their
    own. *)
Lemma calendar_no_current_month :
  (¬ ∃ y m,
       calendar_parameters
         (CMSCalendarEntriesPlugin.render 1 calendar_instance slot page)
       = Some (Some y, Some m)) ∧
  returned "year" (CMSCalendarEntriesPlugin.render 1 calendar_instance slot page)
  = None ∧
  returned "month" (CMSCalendarEntriesPlugin.render 1 calendar_instance slot page)
  = None.
Proof.
  split; [|split; vm_compute; reflexivity].
  intros (y & m & Hp). vm_compute in Hp. discriminate.
Qed.

(** ** Further properties of the latest-entries pipeline *)

Lemma limited_sublist (instance : LatestEntriesPlugin.t) (l : list Entry) :
  CMSLatestEntriesPlugin.limited instance l `sublist_of` l.
Proof.
  unfold CMSLatestEntriesPlugin.limited, slice_to.
  destruct (LatestEntriesPlugin.number_of_entries instance) as [n|]; [|done].
  destruct (truth n); [|done]. apply sublist_take.
Qed.

(** X1.  The latest-entries [render] never reorders: the entries it
    hands over are a subsequence of the published queryset (taken once
    each), so two entries of the output stand in the order they have
    among the published entries. *)
Theorem latest_entries_in_published_order (db : Database) (context : ref)
    (instance : LatestEntriesPlugin.t) (placeholder : Value) (h : Heap)
    (ctx : Context) :
  h !! context = Some ctx →
  ∃ out,
    returned_entries
      (CMSLatestEntriesPlugin.render db context instance placeholder h)
    = Some out ∧
    out `sublist_of` distinct (published db) ∧
    (NoDup (published db) → out `sublist_of` published db).
Proof.
  intros Hc. eexists.
  split; [exact (latest_returned_entries _ _ _ _ _ _ Hc)|].
  assert (CMSLatestEntriesPlugin.limited instance
            (CMSLatestEntriesPlugin.selection db instance)
          `sublist_of` distinct (published db)) as Hsub.
  { etrans; [apply limited_sublist|].
    rewrite selection_filter. apply sublist_filter. }
  split; [done|]. intros Hnodup. by rewrite distinct_NoDup in Hsub.
Qed.

Lemma latest_entries_in_published_order_witness :
  page !! 1%positive = Some page_context ∧
  NoDup (published blog) ∧
  ∃ out,
    returned_entries (CMSLatestEntriesPlugin.render blog 1 teaser slot page)
    = Some out ∧
    out `sublist_of` published blog.
Proof.
  assert (NoDup (published blog)) as Hnodup
    by (apply (bool_decide_unpack _); vm_compute; exact I).
  split; [reflexivity|]. split; [done|].
  destruct (latest_entries_in_published_order blog 1 teaser slot page
              page_context eq_refl) as (out & Hout & _ & Hsub).
  exists out. split; [done|]. by apply Hsub.
Defined.

(** X2.  The include-subcategories flag is read only when a category is
    configured: without categories, setting or clearing it changes
    nothing in what the latest-entries [render] hands over. *)
Theorem subcategories_flag_needs_categories (db : Database) (context : ref)
    (instance : LatestEntriesPlugin.t) (placeholder : Value) (h : Heap)
    (ctx : Context) :
  h !! context = Some ctx →
  LatestEntriesPlugin.categories instance = [] →
  returned_entries
    (CMSLatestEntriesPlugin.render db context
       (with_subcategories true instance) placeholder h)
  = returned_entries
      (CMSLatestEntriesPlugin.render db context
         (with_subcategories false instance) placeholder h).
Proof.
  intros Hc Hnil.
  rewrite !(latest_returned_entries _ _ _ _ _ _ Hc).
  unfold CMSLatestEntriesPlugin.selection,
    CMSLatestEntriesPlugin.restrict_categories.
  cbn [with_subcategories LatestEntriesPlugin.categories]. by rewrite Hnil.
Qed.

Lemma subcategories_flag_needs_categories_witness :
  page !! 1%positive = Some page_context ∧
  returned_entries
    (CMSLatestEntriesPlugin.render blog 1
       (with_subcategories true newest) slot page)
  = returned_entries
      (CMSLatestEntriesPlugin.render blog 1
         (with_subcategories false newest) slot page).
Proof.
  split; [reflexivity|].
  apply (subcategories_flag_needs_categories blog 1 newest slot page page_context);
    reflexivity.
Defined.

(** X3.  The three restrictions commute: in whichever order two of them
    are applied to a queryset, [distinct()] leaves the same rows in the
    same order.  What the latest-entries [render] hands over does not
    depend on categories being looked at before authors and tags. *)
Theorem restrictions_commute (db : Database) (instance : LatestEntriesPlugin.t)
    (entries : list Entry) :
  let by_categories := CMSLatestEntriesPlugin.restrict_categories db instance in
  let by_authors := CMSLatestEntriesPlugin.restrict_authors db instance in
  let by_tags := CMSLatestEntriesPlugin.restrict_tags db instance in
  distinct (by_authors (by_categories entries))
  = distinct (by_categories (by_authors entries)) ∧
  distinct (by_tags (by_authors entries))
  = distinct (by_authors (by_tags entries)) ∧
  distinct (by_tags (by_categories entries))
  = distinct (by_categories (by_tags entries)) ∧
  distinct (by_tags (by_authors (by_categories entries)))
  = distinct (by_categories (by_authors (by_tags entries))).
Proof.
  cbv zeta.
  repeat first
    [ rewrite distinct_restrict_tags
    | rewrite distinct_restrict_authors
    | rewrite distinct_restrict_categories ].
  rewrite !list_filter_filter.
  repeat split; apply list_filter_iff; tauto.
Qed.

Lemma same_members_nil (s s' : list nat) :
  same_members s s' → s = [] ↔ s' = [].
Proof.
  intros Hs. destruct s as [|x s], s' as [|y s']; split; try done; intros _.
  - assert (y ∈ @nil nat) as Hy by (apply Hs; by left). by apply elem_of_nil in Hy.
  - assert (x ∈ @nil nat) as Hx by (apply Hs; by left). by apply elem_of_nil in Hx.
Qed.

Lemma effective_categories_mono (db : Database) (i i' : LatestEntriesPlugin.t) :
  LatestEntriesPlugin.categories i ⊆ LatestEntriesPlugin.categories i' →
  LatestEntriesPlugin.subcategories i = LatestEntriesPlugin.subcategories i' →
  CMSLatestEntriesPlugin.effective_categories db i
  ⊆ CMSLatestEntriesPlugin.effective_categories db i'.
Proof.
  intros Hsub Hflag. unfold CMSLatestEntriesPlugin.effective_categories.
  rewrite <-Hflag. destruct (LatestEntriesPlugin.subcategories i); [|done].
  intros c. rewrite !elem_of_app, !list_elem_of_join.
  intros [Hc|(l & Hc & Hl)]; [left; by apply Hsub|right].
  exists l. split; [done|].
  apply list_elem_of_fmap in Hl as (c' & -> & Hc').
  apply list_elem_of_fmap. exists c'. split; [done|]. by apply Hsub.
Qed.

(** A weaker configuration lets pass whatever a stronger one does. *)
Lemma passes_weaker (db : Database) (i i' : LatestEntriesPlugin.t) (e : Entry) :
  weaker (LatestEntriesPlugin.categories i) (LatestEntriesPlugin.categories i') →
  LatestEntriesPlugin.subcategories i = LatestEntriesPlugin.subcategories i' →
  weaker (LatestEntriesPlugin.authors i) (LatestEntriesPlugin.authors i') →
  weaker (LatestEntriesPlugin.tags i) (LatestEntriesPlugin.tags i') →
  passes db i e → passes db i' e.
Proof.
  unfold passes, weaker.
  intros Hcat Hflag Hauth Htag (Pcat & Pauth & Ptag). repeat split.
  - destruct Hcat as [?|[Hne Hsub]]; [by left|right].
    destruct Pcat as [?|Pcat]; [done|].
    eapply related_mono; [by apply effective_categories_mono|done].
  - destruct Hauth as [?|[Hne Hsub]]; [by left|right].
    destruct Pauth as [?|Pauth]; [done|]. by eapply related_mono.
  - destruct Htag as [?|[Hne Hsub]]; [by left|right].
    destruct Ptag as [?|Ptag]; [done|]. by eapply related_mono.
Qed.

Lemma weaker_same_members (s s' : list nat) :
  same_members s s' → weaker s s'.
Proof.
  intros Hs. destruct (decide (s' = [])) as [?|Hne]; [by left|right].
  split; [by rewrite (same_members_nil _ _ Hs)|]. intros x. apply Hs.
Qed.

Lemma same_members_sym (s s' : list nat) : same_members s s' → same_members s' s.
Proof. intros Hs x. symmetry. apply Hs. Qed.

(** X4.  The configured sets are read as sets: two latest-entries
    instances whose categories, authors and tags have the same members
    (in any order, with any repetition), the same flag and the same
    limit are handed the same entries. *)
Theorem latest_entries_depend_on_sets (db : Database) (context : ref)
    (i i' : LatestEntriesPlugin.t) (placeholder : Value) (h : Heap)
    (ctx : Context) :
  h !! context = Some ctx →
  same_members (LatestEntriesPlugin.categories i) (LatestEntriesPlugin.categories i') →
  same_members (LatestEntriesPlugin.authors i) (LatestEntriesPlugin.authors i') →
  same_members (LatestEntriesPlugin.tags i) (LatestEntriesPlugin.tags i') →
  LatestEntriesPlugin.subcategories i = LatestEntriesPlugin.subcategories i' →
  LatestEntriesPlugin.number_of_entries i = LatestEntriesPlugin.number_of_entries i' →
  returned_entries (CMSLatestEntriesPlugin.render db context i placeholder h)
  = returned_entries (CMSLatestEntriesPlugin.render db context i' placeholder h).
Proof.
  intros Hc Hcat Hauth Htag Hflag Hlim.
  rewrite !(latest_returned_entries _ _ _ _ _ _ Hc).
  unfold CMSLatestEntriesPlugin.limited. rewrite Hlim, !selection_filter.
  do 2 f_equal. apply list_filter_iff. intros e. split.
  - apply passes_weaker; auto using weaker_same_members.
  - apply passes_weaker; auto using weaker_same_members, same_members_sym.
Qed.

Lemma latest_entries_depend_on_sets_witness :
  page !! 1%positive = Some page_context ∧
  returned_entries
    (CMSLatestEntriesPlugin.render blog 1 section_page slot page)
  = returned_entries
      (CMSLatestEntriesPlugin.render blog 1 (latest [10] true [] [] None) slot page).
Proof.
  split; [reflexivity|].
  apply (latest_entries_depend_on_sets blog 1 section_page
           (latest [10] true [] [] None) slot page page_context);
    try reflexivity; try done.
  intros x. cbn. rewrite !elem_of_cons. tauto.
Defined.

Lemma slice_to_nil (n : option nat) : slice_to n [] = [].
Proof. destruct n as [[|n]|]; done. Qed.

(** X5.  A configured criterion that no published entry meets empties
    the result: when categories are configured and no published entry is
    in one of them (descendants included when the flag is set), or
    authors are configured and no published entry is by one of them, or
    tags are configured and no published entry carries one of them, the
    latest-entries [render] hands over no entry at all. *)
Theorem unmatched_criterion_matches_nothing (db : Database) (context : ref)
    (instance : LatestEntriesPlugin.t) (placeholder : Value) (h : Heap)
    (ctx : Context) :
  h !! context = Some ctx →
  (LatestEntriesPlugin.categories instance ≠ [] ∧
   ∀ e, e ∈ published db →
     ¬ related (entry_categories db)
         (CMSLatestEntriesPlugin.effective_categories db instance) e) ∨
  (LatestEntriesPlugin.authors instance ≠ [] ∧
   ∀ e, e ∈ published db →
     ¬ related (entry_authors db) (LatestEntriesPlugin.authors instance) e) ∨
  (LatestEntriesPlugin.tags instance ≠ [] ∧
   ∀ e, e ∈ published db →
     ¬ related (tagged_items db) (LatestEntriesPlugin.tags instance) e) →
  returned_entries
    (CMSLatestEntriesPlugin.render db context instance placeholder h)
  = Some [].
Proof.
  intros Hc Hno. rewrite (latest_returned_entries _ _ _ _ _ _ Hc).
  rewrite selection_filter, filter_none.
  - unfold CMSLatestEntriesPlugin.limited. by rewrite slice_to_nil.
  - intros e He (Pcat & Pauth & Ptag).
    apply (proj1 (elem_of_distinct _ _)) in He.
    destruct Hno as [[Hne Hno]|[[Hne Hno]|[Hne Hno]]].
    + destruct Pcat as [?|Pcat]; [done|]. by apply (Hno e).
    + destruct Pauth as [?|Pauth]; [done|]. by apply (Hno e).
    + destruct Ptag as [?|Ptag]; [done|]. by apply (Hno e).
Qed.

Lemma unmatched_criterion_matches_nothing_witness :
  page !! 1%positive = Some page_context ∧
  returned_entries (CMSLatestEntriesPlugin.render blog 1 orphan_tag slot page)
  = Some [].
Proof.
  split; [reflexivity|].
  apply (unmatched_criterion_matches_nothing blog 1 orphan_tag slot page
           page_context); [reflexivity|].
  right. right. split; [done|].
  intros e _ (t & Ht & Hin)%related_iff.
  apply list_elem_of_singleton in Ht as ->. cbn in Hin.
  repeat (apply elem_of_cons in Hin as [Heq|Hin]; [discriminate Heq|]).
  by apply elem_of_nil in Hin.
Defined.

Lemma slice_to_extends (L1 L2 : nat) (l : list Entry) :
  0 < L1 → L1 ≤ L2 → slice_to (Some L1) l `prefix_of` slice_to (Some L2) l.
Proof.
  intros Hpos Hle. unfold slice_to.
  assert (truth L1 = true) as -> by (destruct L1; [lia|done]).
  assert (truth L2 = true) as -> by (destruct L2; [lia|done]).
  replace (take L1 l) with (take L1 (take L2 l))
    by (rewrite take_take; f_equal; lia).
  apply prefix_take.
Qed.

(** X6.  Raising a limit only appends: for limits [0 < L1 ≤ L2], the
    entries the latest-entries and the query-entries [render] hand over
    under the limit [L1] are the beginning of those handed over under
    [L2].  (A limit of 0 is no lower limit: it means all the entries.) *)
Theorem larger_limit_extends (db : Database) (context : ref)
    (placeholder : Value) (h : Heap) (ctx : Context) (L1 L2 : nat) :
  h !! context = Some ctx →
  0 < L1 → L1 ≤ L2 →
  (∀ instance : LatestEntriesPlugin.t,
     ∃ out1 out2,
       returned_entries
         (CMSLatestEntriesPlugin.render db context
            (with_number_of_entries (Some L1) instance) placeholder h)
       = Some out1 ∧
       returned_entries
         (CMSLatestEntriesPlugin.render db context
            (with_number_of_entries (Some L2) instance) placeholder h)
       = Some out2 ∧
       out1 `prefix_of` out2) ∧
  (∀ instance : QueryEntriesPlugin.t,
     ∃ out1 out2,
       returned_entries
         (CMSQueryEntriesPlugin.render db context
            (query_with_number_of_entries (Some L1) instance) placeholder h)
       = Some out1 ∧
       returned_entries
         (CMSQueryEntriesPlugin.render db context
            (query_with_number_of_entries (Some L2) instance) placeholder h)
       = Some out2 ∧
       out1 `prefix_of` out2).
Proof.
  intros Hc Hpos Hle. split; intros instance; do 2 eexists.
  - split; [exact (latest_returned_entries _ _ _ _ _ _ Hc)|].
    split; [exact (latest_returned_entries _ _ _ _ _ _ Hc)|].
    by apply slice_to_extends.
  - split; [exact (query_returned_entries _ _ _ _ _ _ Hc)|].
    split; [exact (query_returned_entries _ _ _ _ _ _ Hc)|].
    by apply slice_to_extends.
Qed.

Lemma larger_limit_extends_witness :
  page !! 1%positive = Some page_context ∧
  ∃ out1 out2,
    returned_entries
      (CMSLatestEntriesPlugin.render blog 1
         (with_number_of_entries (Some 1) archive) slot page) = Some out1 ∧
    returned_entries
      (CMSLatestEntriesPlugin.render blog 1
         (with_number_of_entries (Some 3) archive) slot page) = Some out2 ∧
    out1 `prefix_of` out2.
Proof.
  split; [reflexivity|].
  destruct (larger_limit_extends blog 1 slot page page_context 1 3 eq_refl)
    as [Hlatest _]; [lia|lia|].
  apply (Hlatest archive).
Defined.

(** X7.  Loosening the configuration never loses an entry: when every
    criterion of [i'] is either not configured or configured in [i] as
    well with at least the members it has in [i] (the flag being the
    same), every entry the latest-entries [render] selects for [i]
    before the slice is selected for [i'], and is handed over for [i']
    when [i'] has no limit.  (An empty set is the loosest, not the
    tightest, configuration.) *)
Theorem weaker_criteria_select_more (db : Database) (context : ref)
    (i i' : LatestEntriesPlugin.t) (placeholder : Value) (h : Heap)
    (ctx : Context) :
  h !! context = Some ctx →
  weaker (LatestEntriesPlugin.categories i) (LatestEntriesPlugin.categories i') →
  LatestEntriesPlugin.subcategories i = LatestEntriesPlugin.subcategories i' →
  weaker (LatestEntriesPlugin.authors i) (LatestEntriesPlugin.authors i') →
  weaker (LatestEntriesPlugin.tags i) (LatestEntriesPlugin.tags i') →
  CMSLatestEntriesPlugin.selection db i ⊆ CMSLatestEntriesPlugin.selection db i' ∧
  (unlimited (LatestEntriesPlugin.number_of_entries i') →
   ∃ out out',
     returned_entries
       (CMSLatestEntriesPlugin.render db context i placeholder h) = Some out ∧
     returned_entries
       (CMSLatestEntriesPlugin.render db context i' placeholder h) = Some out' ∧
     CMSLatestEntriesPlugin.selection db i ⊆ out' ∧
     out ⊆ out').
Proof.
  intros Hc Hcat Hflag Hauth Htag.
  assert (CMSLatestEntriesPlugin.selection db i
          ⊆ CMSLatestEntriesPlugin.selection db i') as Hsel.
  { intros e. rewrite !elem_of_selection. intros [? ?].
    split; [done|]. by eapply passes_weaker. }
  split; [done|]. intros Hlim. do 2 eexists.
  split; [exact (latest_returned_entries _ _ _ _ _ _ Hc)|].
  split; [exact (latest_returned_entries _ _ _ _ _ _ Hc)|].
  rewrite (limited_unset i') by done.
  split; [done|]. etrans; [apply limited_subseteq|done].
Qed.

Lemma weaker_criteria_select_more_witness :
  page !! 1%positive = Some page_context ∧
  unlimited
    (LatestEntriesPlugin.number_of_entries
       (latest [10; 12] false [] [30; 31; 39] None)) ∧
  ∃ out out',
    returned_entries
      (CMSLatestEntriesPlugin.render blog 1 sidebar slot page) = Some out ∧
    returned_entries
      (CMSLatestEntriesPlugin.render blog 1
         (latest [10; 12] false [] [30; 31; 39] None) slot page) = Some out' ∧
    CMSLatestEntriesPlugin.selection blog sidebar ⊆ out' ∧
    out ⊆ out'.
Proof.
  split; [reflexivity|]. split; [by left|].
  destruct (weaker_criteria_select_more blog 1 sidebar
              (latest [10; 12] false [] [30; 31; 39] None) slot page
              page_context eq_refl) as (_ & Hout).
  - right. split; [done|]. done.
  - reflexivity.
  - by left.
  - right. split; [done|]. intros t. cbn. rewrite !elem_of_cons. tauto.
  - apply Hout. by left.
Defined.

(** ** Renders that share a context *)

Lemma plugin_render_alloc (db : Database) (p : Plugin) (context : ref)
    (placeholder : Value) (h : Heap) (ctx : Context) :
  h !! context = Some ctx →
  ∃ ctx' : Context,
    plugin_render db p context placeholder h
      = Some (context, <[context := ctx']> h) ∧
    ctx' !! "object" = Some (instance_value p) ∧
    ctx' !! "placeholder" = Some placeholder ∧
    (∀ k, k ∉ added_keys p → ctx' !! k = ctx !! k).
Proof.
  intros Hc.
  destruct p; run_render Hc; (eexists; split; [reflexivity|]);
    (split; [by read_dict|]); (split; [by read_dict|]);
    intros k Hk; by apply dict_update_other.
Qed.

(** X8.  The context is one object for all who hold it: when a second
    plugin is rendered with the context a first one returned, the result
    is still that same context; it holds the instance and the
    placeholder of the second plugin, and every variable the second
    plugin does not store itself keeps the value the first render left.
    The entries of an entry list are thus still in the context after a
    calendar, a search form, a tools or a random-entries plugin has been
    rendered with it. *)
Theorem later_render_keeps_earlier_variables (db : Database) (p q : Plugin)
    (context : ref) (placeholder placeholder' : Value) (h : Heap)
    (ctx : Context) :
  h !! context = Some ctx →
  let first := plugin_render db p context placeholder h in
  let second := render_then db p q context placeholder placeholder' h in
  (∃ h', second = Some (context, h')) ∧
  returned "object" second = Some (instance_value q) ∧
  returned "placeholder" second = Some placeholder' ∧
  (∀ k, k ∉ added_keys q → returned k second = returned k first) ∧
  ("entries" ∉ added_keys q → returned_entries second = returned_entries first).
Proof.
  intros Hc first second. subst first second.
  destruct (plugin_render_alloc db p context placeholder h ctx Hc)
    as (ctx1 & Hfirst & _).
  destruct (plugin_render_alloc db q context placeholder'
              (<[context := ctx1]> h) ctx1 (lookup_insert_eq _ _ _))
    as (ctx2 & Hsecond & Hobject & Hplaceholder & Hframe).
  unfold render_then. rewrite Hfirst. cbn [mbind option_bind].
  rewrite Hsecond, !returned_Some.
  split; [eauto|]. split; [done|]. split; [done|].
  split.
  - intros k Hk. rewrite !returned_Some. by apply Hframe.
  - intros Hk. unfold returned_entries. rewrite !returned_Some.
    by rewrite Hframe.
Qed.

Lemma later_render_keeps_earlier_variables_witness :
  page !! 1%positive = Some page_context ∧
  returned_entries
    (render_then blog (Latest teaser) (Calendar calendar_instance) 1 slot slot page)
  = returned_entries (plugin_render blog (Latest teaser) 1 slot page).
Proof.
  split; [reflexivity|].
  destruct (later_render_keeps_earlier_variables blog (Latest teaser)
              (Calendar calendar_instance) 1 slot slot page page_context eq_refl)
    as (_ & _ & _ & _ & Hentries).
  apply Hentries. cbn. rewrite !not_elem_of_cons.
  repeat split; try done. apply not_elem_of_nil.
Defined.

(** ** Categories and their descendants *)

Lemma elem_of_effective_categories (db : Database)
    (instance : LatestEntriesPlugin.t) (x : Category) :
  x ∈ CMSLatestEntriesPlugin.effective_categories db instance ↔
  x ∈ LatestEntriesPlugin.categories instance ∨
  (LatestEntriesPlugin.subcategories instance = true ∧
   ∃ c, c ∈ LatestEntriesPlugin.categories instance ∧ x ∈ get_descendants db c).
Proof.
  unfold CMSLatestEntriesPlugin.effective_categories.
  destruct (LatestEntriesPlugin.subcategories instance).
  - rewrite elem_of_app, list_elem_of_join. split.
    + intros [?|(l & Hx & Hl)]; [by left|right]. split; [done|].
      apply list_elem_of_fmap in Hl as (c & -> & Hc). eauto.
    + intros [?|(_ & c & Hc & Hx)]; [by left|right].
      exists (get_descendants db c). split; [done|].
      apply list_elem_of_fmap. eauto.
  - split; [by left|]. by intros [?|[? _]].
Qed.

(** X9.  What the category restriction reaches: with categories
    configured and no limit, the latest-entries [render] hands over
    exactly the published entries that are attached to a configured
    category or, when the include-subcategories flag is set, to a
    category [get_descendants] lists for a configured one, and that
    satisfy the author and the tag restriction.  With the flag cleared
    an entry attached only to a descendant is left out. *)
Theorem category_restriction_reaches_descendants (db : Database)
    (context : ref) (instance : LatestEntriesPlugin.t) (placeholder : Value)
    (h : Heap) (ctx : Context) :
  h !! context = Some ctx →
  LatestEntriesPlugin.categories instance ≠ [] →
  unlimited (LatestEntriesPlugin.number_of_entries instance) →
  ∃ out,
    returned_entries
      (CMSLatestEntriesPlugin.render db context instance placeholder h)
    = Some out ∧
    ∀ e,
      e ∈ out ↔
      e ∈ published db ∧
      (∃ c, c ∈ LatestEntriesPlugin.categories instance ∧
         ((e, c) ∈ entry_categories db ∨
          (LatestEntriesPlugin.subcategories instance = true ∧
           ∃ d, d ∈ get_descendants db c ∧ (e, d) ∈ entry_categories db))) ∧
      (LatestEntriesPlugin.authors instance = [] ∨
       related (entry_authors db) (LatestEntriesPlugin.authors instance) e) ∧
      (LatestEntriesPlugin.tags instance = [] ∨
       related (tagged_items db) (LatestEntriesPlugin.tags instance) e).
Proof.
  intros Hc Hne Hlim. eexists.
  split; [exact (latest_returned_entries _ _ _ _ _ _ Hc)|].
  intros e. rewrite limited_unset, elem_of_selection by done.
  unfold passes. rewrite related_iff.
  setoid_rewrite elem_of_effective_categories. split.
  - intros (Hpub & [?|(x & [Hx|(Hflag & c & Hc' & Hx)] & Hin)] & Hauth & Htag);
      [done| |]; (split; [done|]); (split; [|done]); eauto 10.
  - intros (Hpub & (c & Hc' & [Hin|(Hflag & d & Hd & Hin)]) & Hauth & Htag);
      (split; [done|]); (split; [|done]); right; eauto 10.
Qed.

Lemma category_restriction_reaches_descendants_witness :
  page !! 1%positive = Some page_context ∧
  ∃ out,
    returned_entries
      (CMSLatestEntriesPlugin.render blog 1 section_page slot page) = Some out ∧
    (1 ∈ out ↔
     1 ∈ published blog ∧
     (∃ c, c ∈ LatestEntriesPlugin.categories section_page ∧
        ((1, c) ∈ entry_categories blog ∨
         (LatestEntriesPlugin.subcategories section_page = true ∧
          ∃ d, d ∈ get_descendants blog c ∧ (1, d) ∈ entry_categories blog))) ∧
     (LatestEntriesPlugin.authors section_page = [] ∨
      related (entry_authors blog) (LatestEntriesPlugin.authors section_page) 1) ∧
     (LatestEntriesPlugin.tags section_page = [] ∨
      related (tagged_items blog) (LatestEntriesPlugin.tags section_page) 1)).
Proof.
  split; [reflexivity|].
  destruct (category_restriction_reaches_descendants blog 1 section_page slot
              page page_context eq_refl) as (out & Hout & Hiff);
    [done|by left|].
  exists out. split; [done|]. apply Hiff.
Defined.

(** ** The admin form *)

(** X10.  [formfield_for_manytomany] hands the call on to the base
    class with the keyword arguments it was given, except for
    ['queryset'] on the fields named ['authors'] and ['tags']: there the
    published authors, respectively the published tags, replace whatever
    queryset the caller passed.  For every other field (categories
    included) the arguments are handed on untouched. *)
Theorem formfield_restricts_authors_and_tags {Request FormField : Type}
    (super : DBField.t → Request → gmap string Arg → FormField)
    (choices : Choices) (db_field : DBField.t) (request : Request)
    (kwargs : gmap string Arg) :
  ∃ kwargs' : gmap string Arg,
    CMSLatestEntriesPlugin.formfield_for_manytomany super choices db_field
      request kwargs
    = super db_field request kwargs' ∧
    (∀ k, k ≠ "queryset" → kwargs' !! k = kwargs !! k) ∧
    (DBField.name db_field = "authors" →
     kwargs' !! "queryset" = Some (AQuerySet (authors_published choices))) ∧
    (DBField.name db_field = "tags" →
     kwargs' !! "queryset" = Some (AQuerySet (tags_published choices))) ∧
    (DBField.name db_field ≠ "authors" → DBField.name db_field ≠ "tags" →
     kwargs' = kwargs).
Proof.
  unfold CMSLatestEntriesPlugin.formfield_for_manytomany.
  eexists. split; [reflexivity|].
  destruct (decide (DBField.name db_field = "authors")) as [Ha|Ha];
    destruct (decide (DBField.name db_field = "tags")) as [Ht|Ht];
    try (rewrite Ha in Ht; discriminate Ht);
    repeat split; try done; intros;
    by simplify_map_eq.
Qed.

Lemma formfield_restricts_authors_and_tags_witness :
  CMSLatestEntriesPlugin.formfield_for_manytomany offered blog_choices
    {| DBField.name := "authors" |} "POST /admin/"
    {[ "queryset" := AQuerySet [20; 21; 22]; "required" := AOther "False" ]}
  = Some (AQuerySet [20; 21]).
Proof.
  destruct (formfield_restricts_authors_and_tags offered blog_choices
              {| DBField.name := "authors" |} "POST /admin/"
              {[ "queryset" := AQuerySet [20; 21; 22]; "required" := AOther "False" ]})
    as (kwargs' & -> & _ & Hauthors & _).
  unfold offered. by apply Hauthors.
Defined.

(** ** Renders on different contexts *)

(** What a [render] stores depends on the context it is given only, not
    on the other objects of the heap. *)
Lemma plugin_render_local (db : Database) (p : Plugin) (context : ref)
    (placeholder : Value) (h h' : Heap) (ctx : Context) :
  h !! context = Some ctx →
  h' !! context = Some ctx →
  ∃ ctx' : Context,
    plugin_render db p context placeholder h
      = Some (context, <[context := ctx']> h) ∧
    plugin_render db p context placeholder h'
      = Some (context, <[context := ctx']> h').
Proof.
  intros Hc Hc'.
  destruct p; run_render Hc; run_render Hc'; eauto.
Qed.

(** X11.  A [render] writes to the context it is given and to nothing
    else, so renders on two different contexts do not interfere: done in
    either order they leave the same heap. *)
Theorem renders_on_different_contexts_commute (db : Database) (p q : Plugin)
    (c1 c2 : ref) (placeholder placeholder' : Value) (h : Heap)
    (ctx1 ctx2 : Context) :
  c1 ≠ c2 →
  h !! c1 = Some ctx1 →
  h !! c2 = Some ctx2 →
  ∃ hp hq h',
    plugin_render db p c1 placeholder h = Some (c1, hp) ∧
    plugin_render db q c2 placeholder' hp = Some (c2, h') ∧
    plugin_render db q c2 placeholder' h = Some (c2, hq) ∧
    plugin_render db p c1 placeholder hq = Some (c1, h') ∧
    hp !! c2 = Some ctx2 ∧ hq !! c1 = Some ctx1.
Proof.
  intros Hne H1 H2.
  destruct (plugin_render_local db q c2 placeholder' h
              (<[c1 := ctx1]> h) ctx2 H2) as (ctx2' & Hq & _);
    [by rewrite lookup_insert_ne|].
  destruct (plugin_render_local db p c1 placeholder h
              (<[c2 := ctx2']> h) ctx1 H1) as (ctx1' & Hp & Hp');
    [by rewrite lookup_insert_ne|].
  destruct (plugin_render_local db q c2 placeholder' h
              (<[c1 := ctx1']> h) ctx2 H2) as (ctx2'' & Hq0 & Hq');
    [by rewrite lookup_insert_ne|].
  rewrite Hq in Hq0. injection Hq0 as Heq.
  assert (ctx2'' = ctx2') as ->.
  { apply (f_equal (λ m : Heap, m !! c2)) in Heq.
    rewrite !lookup_insert_eq in Heq. congruence. }
  exists (<[c1 := ctx1']> h), (<[c2 := ctx2']> h),
    (<[c2 := ctx2']> (<[c1 := ctx1']> h)).
  split; [done|]. split; [done|]. split; [done|].
  split; [by rewrite Hp', insert_insert_ne|].
  by rewrite !lookup_insert_ne.
Qed.

Lemma renders_on_different_contexts_commute_witness :
  (1 ≠ 2)%positive ∧
  ∃ hp hq h',
    plugin_render blog (Latest teaser) 1 slot
      (<[2%positive := page_context]> page) = Some (1%positive, hp) ∧
    plugin_render blog (Query (query_instance None)) 2 slot hp
      = Some (2%positive, h') ∧
    plugin_render blog (Query (query_instance None)) 2 slot
      (<[2%positive := page_context]> page) = Some (2%positive, hq) ∧
    plugin_render blog (Latest teaser) 1 slot hq = Some (1%positive, h') ∧
    hp !! 2%positive = Some page_context ∧ hq !! 1%positive = Some page_context.
Proof.
  split; [done|].
  apply (renders_on_different_contexts_commute blog (Latest teaser)
           (Query (query_instance None)) 1 2 slot slot
           (<[2%positive := page_context]> page) page_context page_context);
    [done|reflexivity|reflexivity].
Defined.
